(** * PatchTransformer: the patch plugin of kustomize

    A shallow embedding of [plugin/builtin/patchtransformer/PatchTransformer.go]:
    the methods [Config] and [Transform] of the plugin and the helper
    [jsonPatchFromBytes].

    Go statements are embedded in a small monad [Go T A] over a [world]
    (the plugin object, the documents of the collection, and a trace of
    the calls made on the collaborators): a statement either continues
    with a value, executes [return], or panics on a nil dereference.  A
    Go call returning [(v, err)] is a pair whose second component is
    [None] for a nil error. *)

From Stdlib Require Import String Ascii List Bool Lia Sorted.
From stdpp Require Import base option list strings.

Open Scope string_scope.

Set Warnings "-register-all".

(** ** Errors *)

(** [fmt.Errorf] with its message already formatted, and [errors.Wrapf]. *)
Inductive error : Type :=
| Errorf (msg : string)
| Wrapf (cause : error) (msg : string).

Definition nl : string := String (ascii_of_nat 10) EmptyString.

Definition notnil {A : Type} (o : option A) : bool :=
match o with Some _ => true | None => false end.

Definition isnil {A : Type} (o : option A) : bool := negb (notnil o).

Definition isempty (s : string) : bool :=
match s with EmptyString => true | String _ _ => false end.

Definition nonempty (s : string) : bool := negb (isempty s).

(** ** The collaborators' interfaces *)

Module resid.

Record Gvk : Type := { Group : string; Version : string; Kind : string }.

Record ResId : Type := { gvk : Gvk; Name : string; Namespace : string }.

End resid.

Module ifc.

(** [ifc.Loader], of which the plugin only uses [Load]. *)
Record Loader : Type := { Load : string -> string * option error }.

End ifc.

Module resource.

(** The methods of [*resource.Resource] the plugin calls.  A method with a
    pointer receiver that mutates it returns the new value of the receiver. *)
Class Methods (R : Type) : Type := {
  OrgId : R -> resid.ResId;
  GetName : R -> string;
  GetNamespace : R -> string;
  GetGvk : R -> resid.Gvk;
  SetName : string -> R -> R;
  SetNamespace : string -> R -> R;
  SetGvk : resid.Gvk -> R -> R;
  Patch : R -> R -> R * option error;
  MarshalJSON : R -> string * option error;
  UnmarshalJSON : string -> R -> R * option error
}.

(** [*resource.Factory]. *)
Record Factory (R : Type) : Type := { FromBytes : string -> option R * option error }.

Arguments FromBytes {R} _ _.

End resource.

Module resmap.

(** [*resmap.Factory]; [RF()] gives its resource factory. *)
Record Factory (R : Type) : Type := { RF : resource.Factory R }.

Arguments RF {R} _.

(** [resmap.ResMap]: a pointer into the collection is the position of the
    document in it; the methods read the documents the collection holds. *)
Record ResMap (R Selector : Type) : Type := {
  GetById : resid.ResId -> list R -> option nat * option error;
  Select : Selector -> list R -> list nat * option error
}.

Arguments GetById {R Selector} _ _ _.
Arguments Select {R Selector} _ _ _.

End resmap.

Module yaml.

(** [sigs.k8s.io/yaml]: [Unmarshal] into a value of type [T], and [YAMLToJSON]. *)
Class Lib (T : Type) : Type := {
  Unmarshal : string -> T -> T * option error;
  YAMLToJSON : string -> string * option error
}.

End yaml.

Module jsonpatch.

(** [github.com/evanphx/json-patch]: [P] is a non-nil [jsonpatch.Patch]. *)
Class Lib (P : Type) : Type := {
  DecodePatch : string -> option P * option error;
  Apply : P -> string -> string * option error
}.

End jsonpatch.

(** ** Statements *)

(** How a statement ends: it falls through with a value, it is a [return],
    or the Go runtime panics. *)
Inductive step (T A : Type) : Type :=
| Next (a : A)
| Return (t : T)
| Panic.

Arguments Next {T A} a.
Arguments Return {T A} t.
Arguments Panic {T A}.

(** ** The plugin *)

Section PatchTransformer.

Context {R Selector JPatch : Type}.

Record plugin : Type := {
  ldr : option ifc.Loader;
  rf : option (resmap.Factory R);
  loadedPatch : option R;
  decodedPatch : option JPatch;
  Path : string;
  Patch : string;
  Target : option Selector
}.

(** [var KustomizePlugin plugin]: the zero value. *)
Definition KustomizePlugin : plugin :=
{| ldr := None; rf := None; loadedPatch := None; decodedPatch := None;
   Path := ""; Patch := ""; Target := None |}.

Context {methods : resource.Methods R} {yamlLib : yaml.Lib plugin}
  {jsonpatchLib : jsonpatch.Lib JPatch}.

(** The calls on the collaborators, in the order they are made. *)
Inductive event : Type :=
| CallUnmarshal (c : string)
| CallLoad (path : string)
| CallFromBytes (body : string)
| CallYAMLToJSON (body : string)
| CallDecodePatch (buf : string)
| CallGetById (id : resid.ResId)
| CallSelect (s : Selector)
| CallMarshalJSON (ptr : nat)
| CallApply (raw : string)
| CallUnmarshalJSON (ptr : nat) (buf : string)
| CallPatch (ptr : nat) (other : R).

Record world : Type := World { plug : plugin; docs : list R; trace : list event }.

Definition Go (T A : Type) : Type := world -> step T A * world.

#[global] Instance Go_ret {T} : MRet (Go T) := fun A a w => (Next a, w).

#[global] Instance Go_bind {T} : MBind (Go T) := fun A B f m w =>
match m w with
| (Next a, w') => f a w'
| (Return t, w') => (Return t, w')
| (Panic, w') => (Panic, w')
end.

Definition pure {T A} (a : A) : Go T A := mret a.

Definition return_ {T A} (t : T) : Go T A := fun w => (Return t, w).

Definition panic {T A} : Go T A := fun w => (Panic, w).

(** [if b { s }] *)
Definition when {T} (b : bool) (s : Go T unit) : Go T unit :=
if b then s else pure tt.

(** A call of a function whose body is [body]: its [return] gives the value. *)
Definition call {T T'} (body : Go T' Empty_set) : Go T T' := fun w =>
match body w with
| (Next a, _) => match a with end
| (Return t, w') => (Next t, w')
| (Panic, w') => (Panic, w')
end.

(** [for _, x := range l { body x }] *)
Fixpoint for_range {T X} (l : list X) (body : X -> Go T unit) : Go T unit :=
match l with
| [] => pure tt
| x :: l' => body x ;; for_range l' body
end.

(** *** Reading and writing the world *)

Definition get_plug {T} : Go T plugin := fun w => (Next (plug w), w).

Definition get_docs {T} : Go T (list R) := fun w => (Next (docs w), w).

Definition assign {T} (f : plugin -> plugin) : Go T unit := fun w =>
(Next tt, World (f (plug w)) (docs w) (trace w)).

Definition log {T} (e : event) : Go T unit := fun w =>
(Next tt, World (plug w) (docs w) (trace w ++ [e])).

(** Following a pointer into the collection; a pointer to no document is nil. *)
Definition deref {T} (ptr : nat) : Go T R := fun w =>
match docs w !! ptr with
| Some r => (Next r, w)
| None => (Panic, w)
end.

Definition store {T} (ptr : nat) (r : R) : Go T unit := fun w =>
(Next tt, World (plug w) (<[ptr := r]> (docs w)) (trace w)).

Definition with_ldr (v : option ifc.Loader) (p : plugin) : plugin :=
{| ldr := v; rf := rf p; loadedPatch := loadedPatch p; decodedPatch := decodedPatch p;
   Path := Path p; Patch := Patch p; Target := Target p |}.

Definition with_rf (v : option (resmap.Factory R)) (p : plugin) : plugin :=
{| ldr := ldr p; rf := v; loadedPatch := loadedPatch p; decodedPatch := decodedPatch p;
   Path := Path p; Patch := Patch p; Target := Target p |}.

Definition with_loadedPatch (v : option R) (p : plugin) : plugin :=
{| ldr := ldr p; rf := rf p; loadedPatch := v; decodedPatch := decodedPatch p;
   Path := Path p; Patch := Patch p; Target := Target p |}.

Definition with_decodedPatch (v : option JPatch) (p : plugin) : plugin :=
{| ldr := ldr p; rf := rf p; loadedPatch := loadedPatch p; decodedPatch := v;
   Path := Path p; Patch := Patch p; Target := Target p |}.

(** The decoder only sees the exported fields (those with a tag): [Path],
    [Patch] and [Target] are taken from what it produced, the others stay. *)
Definition exported_from (q p : plugin) : plugin :=
{| ldr := ldr p; rf := rf p; loadedPatch := loadedPatch p; decodedPatch := decodedPatch p;
   Path := Path q; Patch := Patch q; Target := Target q |}.

(** *** Calls on the collaborators, each recorded in the trace *)

(** [yaml.Unmarshal(c, p)] *)
Definition yaml_Unmarshal {T} (c : string) : Go T (option error) :=
p ← get_plug;
log (CallUnmarshal c);;
let '(q, err) := yaml.Unmarshal c p in
assign (exported_from q);;
pure err.

(** [ldr.Load(path)] *)
Definition ldr_Load {T} (l : ifc.Loader) (path : string) : Go T (string * option error) :=
log (CallLoad path);;
pure (ifc.Load l path).

(** [p.rf.RF().FromBytes(body)] *)
Definition p_rf_RF_FromBytes {T} (body : string) : Go T (option R * option error) :=
p ← get_plug;
match rf p with
| None => panic
| Some f => log (CallFromBytes body);; pure (resource.FromBytes (resmap.RF f) body)
end.

(** [yaml.YAMLToJSON(body)] *)
Definition yaml_YAMLToJSON {T} (body : string) : Go T (string * option error) :=
log (CallYAMLToJSON body);;
pure (yaml.YAMLToJSON (T := plugin) body).

(** [jsonpatch.DecodePatch(buf)] *)
Definition jsonpatch_DecodePatch {T} (buf : string) : Go T (option JPatch * option error) :=
log (CallDecodePatch buf);;
pure (jsonpatch.DecodePatch buf).

(** [m.GetById(id)] *)
Definition m_GetById {T} (m : resmap.ResMap R Selector) (id : resid.ResId)
  : Go T (option nat * option error) :=
log (CallGetById id);;
ds ← get_docs;
pure (resmap.GetById m id ds).

(** [m.Select(s)] *)
Definition m_Select {T} (m : resmap.ResMap R Selector) (s : Selector)
  : Go T (list nat * option error) :=
log (CallSelect s);;
ds ← get_docs;
pure (resmap.Select m s ds).

(** A getter called on the document behind [ptr]. *)
Definition at_ptr {T X} (ptr : nat) (get : R -> X) : Go T X :=
r ← deref ptr;
pure (get r).

(** [ptr.Patch(other)] *)
Definition ptr_Patch {T} (ptr : nat) (other : R) : Go T (option error) :=
r ← deref ptr;
log (CallPatch ptr other);;
let '(r', err) := resource.Patch r other in
store ptr r';;
pure err.

(** [ptr.MarshalJSON()] *)
Definition ptr_MarshalJSON {T} (ptr : nat) : Go T (string * option error) :=
r ← deref ptr;
log (CallMarshalJSON ptr);;
pure (resource.MarshalJSON r).

(** [ptr.UnmarshalJSON(buf)] *)
Definition ptr_UnmarshalJSON {T} (ptr : nat) (buf : string) : Go T (option error) :=
r ← deref ptr;
log (CallUnmarshalJSON ptr buf);;
let '(r', err) := resource.UnmarshalJSON buf r in
store ptr r';;
pure err.

(** [*p.loadedPatch] *)
Definition p_loadedPatch {T} : Go T R :=
p ← get_plug;
match loadedPatch p with
| Some lp => pure lp
| None => panic
end.

(** A setter called on [p.loadedPatch]: the patch document is mutated in place. *)
Definition p_loadedPatch_set {T} (set : R -> R) : Go T unit :=
lp ← p_loadedPatch;
assign (with_loadedPatch (Some (set lp))).

(** [p.decodedPatch.Apply(raw)] *)
Definition p_decodedPatch_Apply {T} (raw : string) : Go T (string * option error) :=
p ← get_plug;
match decodedPatch p with
| Some ops => log (CallApply raw);; pure (jsonpatch.Apply ops raw)
| None => panic
end.

(** [s[0]] *)
Definition index0 {T} (s : string) : Go T ascii :=
match s with
| String a _ => pure a
| EmptyString => panic
end.

(** ** jsonPatchFromBytes *)

Definition jsonPatchFromBytes (body : string) : Go (option JPatch * option error) Empty_set :=
let ops := body in
when (isempty ops)
  (return_ (None, Some (Errorf "empty json patch operations")));;
c ← index0 ops;
ops ← (if negb (Ascii.eqb c "["%char) then
         '(jsonOps, err) ← yaml_YAMLToJSON body;
         when (notnil err) (return_ (None, err));;
         pure jsonOps
       else pure ops);
r ← jsonpatch_DecodePatch ops;
return_ r.

(** ** Config *)

Definition Config (ldr : ifc.Loader) (rf : resmap.Factory R) (c : string)
  : Go (option error) Empty_set :=
assign (with_ldr (Some ldr));;
assign (with_rf (Some rf));;
err ← yaml_Unmarshal c;
when (notnil err) (return_ err);;
p ← get_plug;
when (isempty (Patch p) && isempty (Path p))
  (return_ (Some (Errorf ("must specify one of patch and path in" +:+ nl +:+ c))));;
when (nonempty (Patch p) && nonempty (Path p))
  (return_ (Some (Errorf ("patch and path can't be set at the same time" +:+ nl +:+ c))));;
body ← (if nonempty (Path p) then
          '(data, err) ← ldr_Load ldr (Path p);
          when (notnil err) (return_ err);;
          pure data
        else pure "");
let body := if nonempty (Patch p) then Patch p else body in
'(patchSM, errSM) ← p_rf_RF_FromBytes body;
'(patchJson, errJson) ← call (jsonPatchFromBytes body);
when (notnil errSM && notnil errJson)
  (return_ (Some (Errorf
     ("unable to get either a Strategic Merge Patch or JSON patch 6902 from " +:+ Patch p))));;
when (isnil errSM && notnil errJson) (assign (with_loadedPatch patchSM));;
when (isnil errJson && notnil errSM) (assign (with_decodedPatch patchJson));;
(* the named result [err] is assigned here, and [return nil] follows *)
let err := if notnil patchSM && notnil patchJson
           then Some (Errorf
             ("a patch can't be both a Strategic Merge Patch and JSON patch 6902 " +:+ Patch p))
           else None in
return_ None.

(** ** Transform *)

(** The body of the loop over the selected documents. *)
Definition Transform_body (resource : nat) : Go (option error) unit :=
p ← get_plug;
when (notnil (decodedPatch p))
  ('(rawObj, err) ← ptr_MarshalJSON resource;
   when (notnil err) (return_ err);;
   '(modifiedObj, err) ← p_decodedPatch_Apply rawObj;
   match err with
   | Some e => return_ (Some (Wrapf e ("failed to apply json patch '" +:+ Patch p +:+ "'")))
   | None => pure tt
   end;;
   err ← ptr_UnmarshalJSON resource modifiedObj;
   when (notnil err) (return_ err));;
when (notnil (loadedPatch p))
  (name ← at_ptr resource resource.GetName;
   p_loadedPatch_set (resource.SetName name);;
   namespace ← at_ptr resource resource.GetNamespace;
   p_loadedPatch_set (resource.SetNamespace namespace);;
   gvk ← at_ptr resource resource.GetGvk;
   p_loadedPatch_set (resource.SetGvk gvk);;
   other ← p_loadedPatch;
   err ← ptr_Patch resource other;
   when (notnil err) (return_ err)).

Definition Transform (m : resmap.ResMap R Selector) : Go (option error) Empty_set :=
p ← get_plug;
when (notnil (loadedPatch p) && isnil (Target p))
  (lp ← p_loadedPatch;
   '(target, err) ← m_GetById m (resource.OrgId lp);
   when (notnil err) (return_ err);;
   other ← p_loadedPatch;
   err ← match target with
         | Some ptr => ptr_Patch ptr other
         | None => panic
         end;
   when (notnil err) (return_ err));;
match Target p with
| None => return_ (Some (Errorf ("must specify a target for patch " +:+ Patch p)))
| Some target =>
    '(resources, err) ← m_Select m target;
    when (notnil err) (return_ err);;
    for_range resources Transform_body;;
    return_ None
end.

(** ** Vocabulary of the specification *)

(** A run starts with an empty trace. *)
Definition start (p : plugin) (m : list R) : world := World p m [].

(** The errors the plugin builds itself, under the names of the specification. *)
Definition MissingPatchSource (c : string) : error :=
Errorf ("must specify one of patch and path in" +:+ nl +:+ c).

Definition ConflictingPatchSource (c : string) : error :=
Errorf ("patch and path can't be set at the same time" +:+ nl +:+ c).

Definition UnrecognizedPatchFormat (patch : string) : error :=
Errorf ("unable to get either a Strategic Merge Patch or JSON patch 6902 from " +:+ patch).

Definition AmbiguousPatchType (patch : string) : error :=
Errorf ("a patch can't be both a Strategic Merge Patch and JSON patch 6902 " +:+ patch).

Definition MissingTarget (patch : string) : error :=
Errorf ("must specify a target for patch " +:+ patch).

Definition is_CallLoad (e : event) : bool :=
match e with CallLoad _ => true | _ => false end.

(** The calls on the two decoders of the classification. *)
Definition is_decoder_call (e : event) : bool :=
match e with
| CallFromBytes _ | CallYAMLToJSON _ | CallDecodePatch _ => true
| _ => false
end.

(** The calls that change a document. *)
Definition is_mutation (e : event) : bool :=
match e with
| CallPatch _ _ | CallUnmarshalJSON _ _ => true
| _ => false
end.

(** The patch body the source resolution ended with: the one handed to the
    strategic-merge decoder, the first statement of the classification. *)
Fixpoint resolved_body (calls : list event) : option string :=
match calls with
| [] => None
| CallFromBytes body :: _ => Some body
| _ :: calls' => resolved_body calls'
end.

(** The result of [jsonPatchFromBytes]: it does not depend on the world. *)
Definition jsonPatchFromBytes_result (body : string) : step (option JPatch * option error) Empty_set :=
fst (jsonPatchFromBytes body (start KustomizePlugin [])).

(** White space as [strings.TrimSpace] sees it in ASCII. *)
Definition isSpace (a : ascii) : bool :=
let n := nat_of_ascii a in
((9 <=? n)%nat && (n <=? 13)%nat) || (n =? 32)%nat.

Fixpoint trimLeft (s : string) : string :=
match s with
| EmptyString => EmptyString
| String a s' => if isSpace a then trimLeft s' else s
end.

Fixpoint trimRight (s : string) : string :=
match s with
| EmptyString => EmptyString
| String a s' =>
    match trimRight s' with
    | EmptyString => if isSpace a then EmptyString else String a EmptyString
    | t => String a t
    end
end.

(** The trimmed form of a body, in the words of the specification. *)
Definition trimmed (s : string) : string := trimRight (trimLeft s).

Definition starts_with_bracket (s : string) : bool :=
match s with
| String a _ => Ascii.eqb a "["%char
| EmptyString => false
end.

(** The body decodes as a strategic-merge document: [FromBytes] gives a nil error. *)
Definition decodesStrategicMerge (rf : resmap.Factory R) (body : string) : bool :=
isnil (snd (resource.FromBytes (resmap.RF rf) body)).

(** The body decodes as a JSON Patch: [jsonPatchFromBytes] gives a nil error. *)
Definition decodesJSONPatch (body : string) : bool :=
match jsonPatchFromBytes_result body with
| Return (_, None) => true
| _ => false
end.

(** The operation list [jsonPatchFromBytes] gives for the body. *)
Definition decodedJSONPatch (body : string) : option JPatch :=
match jsonPatchFromBytes_result body with
| Return (ops, _) => ops
| _ => None
end.

(** A relation between the worlds before and after a statement holds
    whatever the world the statement starts in. *)
Definition keeps {T A} (rel : world -> world -> Prop) (a : Go T A) : Prop :=
forall w, rel w (snd (a w)).

(** ** The runs of [jsonPatchFromBytes] and [Config]

    The ways a run can go, each with the result and the calls it makes. *)

Inductive JsonRun (body : string) : option JPatch * option error -> list event -> Prop :=
| json_empty :
    body = "" ->
    JsonRun body (None, Some (Errorf "empty json patch operations")) []
| json_direct :
    starts_with_bracket body = true ->
    JsonRun body (jsonpatch.DecodePatch body) [CallDecodePatch body]
| json_unconverted json e :
    body <> "" -> starts_with_bracket body = false ->
    yaml.YAMLToJSON (T := plugin) body = (json, Some e) ->
    JsonRun body (None, Some e) [CallYAMLToJSON body]
| json_converted json :
    body <> "" -> starts_with_bracket body = false ->
    yaml.YAMLToJSON (T := plugin) body = (json, None) ->
    JsonRun body (jsonpatch.DecodePatch json) [CallYAMLToJSON body; CallDecodePatch json].

(** The plugin [yaml.Unmarshal] is called on: [ldr] and [rf] are stored first. *)
Definition bound (ldr : ifc.Loader) (rf : resmap.Factory R) (p : plugin) : plugin :=
with_rf (Some rf) (with_ldr (Some ldr) p).

(** The source resolves to [body], after the calls [pre]. *)
Inductive Resolved (ldr : ifc.Loader) (q : plugin) : string -> list event -> Prop :=
| resolved_inline :
    Patch q <> "" -> Path q = "" ->
    Resolved ldr q (Patch q) []
| resolved_loaded data :
    Patch q = "" -> Path q <> "" -> ifc.Load ldr (Path q) = (data, None) ->
    Resolved ldr q data [CallLoad (Path q)].

(** What the classification stores in the plugin. *)
Definition stored (patchSM : option R) (errSM : option error)
    (patchJson : option JPatch) (errJson : option error) (p : plugin) : plugin :=
let p := if isnil errSM && notnil errJson then with_loadedPatch patchSM p else p in
if isnil errJson && notnil errSM then with_decodedPatch patchJson p else p.

Inductive ConfigRun (ldr : ifc.Loader) (rf : resmap.Factory R) (c : string) (p : plugin)
  : step (option error) Empty_set -> plugin -> list event -> Prop :=
| config_undecoded q e :
    yaml.Unmarshal c (bound ldr rf p) = (q, Some e) ->
    ConfigRun ldr rf c p (Return (Some e)) (exported_from q (bound ldr rf p))
      [CallUnmarshal c]
| config_missing q :
    yaml.Unmarshal c (bound ldr rf p) = (q, None) ->
    Patch q = "" -> Path q = "" ->
    ConfigRun ldr rf c p (Return (Some (MissingPatchSource c)))
      (exported_from q (bound ldr rf p)) [CallUnmarshal c]
| config_conflicting q :
    yaml.Unmarshal c (bound ldr rf p) = (q, None) ->
    Patch q <> "" -> Path q <> "" ->
    ConfigRun ldr rf c p (Return (Some (ConflictingPatchSource c)))
      (exported_from q (bound ldr rf p)) [CallUnmarshal c]
| config_unloaded q data e :
    yaml.Unmarshal c (bound ldr rf p) = (q, None) ->
    Patch q = "" -> Path q <> "" -> ifc.Load ldr (Path q) = (data, Some e) ->
    ConfigRun ldr rf c p (Return (Some e))
      (exported_from q (bound ldr rf p)) [CallUnmarshal c; CallLoad (Path q)]
| config_classified q body pre patchSM errSM patchJson errJson calls :
    yaml.Unmarshal c (bound ldr rf p) = (q, None) ->
    Resolved ldr q body pre ->
    resource.FromBytes (resmap.RF rf) body = (patchSM, errSM) ->
    JsonRun body (patchJson, errJson) calls ->
    jsonPatchFromBytes_result body = Return (patchJson, errJson) ->
    ConfigRun ldr rf c p
      (Return (if notnil errSM && notnil errJson
               then Some (UnrecognizedPatchFormat (Patch q)) else None))
      (stored patchSM errSM patchJson errJson (exported_from q (bound ldr rf p)))
      (CallUnmarshal c :: pre ++ CallFromBytes body :: calls).

(** The documents the merge primitive was called on, in the order of the calls. *)
Fixpoint patch_targets (calls : list event) : list nat :=
match calls with
| [] => []
| CallPatch ptr _ :: calls' => ptr :: patch_targets calls'
| _ :: calls' => patch_targets calls'
end.

(** The patch document [lp] with the name, namespace and group/version/kind
    of the document [d] set on it, as the loop does before a merge. *)
Definition restamp (d lp : R) : R :=
resource.SetGvk (resource.GetGvk d)
  (resource.SetNamespace (resource.GetNamespace d)
     (resource.SetName (resource.GetName d) lp)).

(** A collaborator fails while the patch is applied to the document behind
    [ptr] in the world [w]: the error [Transform] then has in hand, and the
    world the failed call leaves.  The serialization fails; the JSON Patch
    cannot be applied (this error alone is wrapped); the patched bytes
    cannot be read back; the merge fails, on the document as it was or as
    the JSON Patch left it. *)
Inductive PatchFails (w : world) (ptr : nat) : error -> world -> Prop :=
| fails_MarshalJSON ops d raw e :
    decodedPatch (plug w) = Some ops -> docs w !! ptr = Some d ->
    resource.MarshalJSON d = (raw, Some e) ->
    PatchFails w ptr e
      (World (plug w) (docs w) (trace w ++ [CallMarshalJSON ptr]))
| fails_Apply ops d raw modified e :
    decodedPatch (plug w) = Some ops -> docs w !! ptr = Some d ->
    resource.MarshalJSON d = (raw, None) ->
    jsonpatch.Apply ops raw = (modified, Some e) ->
    PatchFails w ptr
      (Wrapf e ("failed to apply json patch '" +:+ Patch (plug w) +:+ "'"))
      (World (plug w) (docs w) (trace w ++ [CallMarshalJSON ptr; CallApply raw]))
| fails_UnmarshalJSON ops d raw modified d' e :
    decodedPatch (plug w) = Some ops -> docs w !! ptr = Some d ->
    resource.MarshalJSON d = (raw, None) ->
    jsonpatch.Apply ops raw = (modified, None) ->
    resource.UnmarshalJSON modified d = (d', Some e) ->
    PatchFails w ptr e
      (World (plug w) (<[ptr := d']> (docs w))
         (trace w ++ [CallMarshalJSON ptr; CallApply raw;
                      CallUnmarshalJSON ptr modified]))
| fails_Patch lp d d' e :
    decodedPatch (plug w) = None -> loadedPatch (plug w) = Some lp ->
    docs w !! ptr = Some d ->
    resource.Patch d (restamp d lp) = (d', Some e) ->
    PatchFails w ptr e
      (World (with_loadedPatch (Some (restamp d lp)) (plug w))
         (<[ptr := d']> (docs w))
         (trace w ++ [CallPatch ptr (restamp d lp)]))
| fails_Patch_after_json ops lp d raw modified d1 d' e :
    decodedPatch (plug w) = Some ops -> loadedPatch (plug w) = Some lp ->
    docs w !! ptr = Some d ->
    resource.MarshalJSON d = (raw, None) ->
    jsonpatch.Apply ops raw = (modified, None) ->
    resource.UnmarshalJSON modified d = (d1, None) ->
    resource.Patch d1 (restamp d1 lp) = (d', Some e) ->
    PatchFails w ptr e
      (World (with_loadedPatch (Some (restamp d1 lp)) (plug w))
         (<[ptr := d']> (<[ptr := d1]> (docs w)))
         (trace w ++ [CallMarshalJSON ptr; CallApply raw;
                      CallUnmarshalJSON ptr modified;
                      CallPatch ptr (restamp d1 lp)])).

(** What [Transform] leaves alone in every world: the number of documents,
    and the plugin but for its patch document. *)
Definition configured_alike (w w' : world) : Prop :=
length (docs w') = length (docs w) /\
Path (plug w') = Path (plug w) /\ Patch (plug w') = Patch (plug w) /\
Target (plug w') = Target (plug w) /\
decodedPatch (plug w') = decodedPatch (plug w) /\
ldr (plug w') = ldr (plug w) /\ rf (plug w') = rf (plug w).

(** The document a JSON Patch makes of [d]: serialized, patched, read back;
    none when one of the three steps fails. *)
Definition json_patched (ops : JPatch) (d : R) : option R :=
match resource.MarshalJSON d with
| (raw, None) =>
    match jsonpatch.Apply ops raw with
    | (modified, None) =>
        match resource.UnmarshalJSON modified d with
        | (d', None) => Some d'
        | _ => None
        end
    | _ => None
    end
| _ => None
end.

End PatchTransformer.



(** ** The documents and the collection *)

Module model.

(** Modelled from the spec: the document model of [pkg/resource], which is
    not part of the plugin's file.  A document carries its identity
    (group/version/kind, name, namespace) and a body of fields; a field is a
    scalar, a sequence or a mapping. *)
Inductive Value : Type :=
| Scalar (s : string)
| Sequence (items : list Value)
| Mapping (fields : list (string * Value)).

Fixpoint field (k : string) (fs : list (string * Value)) : option Value :=
match fs with
| [] => None
| (k', v) :: fs' => if String.eqb k k' then Some v else field k fs'
end.

(** The field [k] of [fs] becomes [merged old] when there is one, and [fresh]
    is added when there is none. *)
Fixpoint upsert (k : string) (merged : Value -> Value) (fresh : Value)
    (fs : list (string * Value)) : list (string * Value) :=
match fs with
| [] => [(k, fresh)]
| (k', v) :: fs' =>
    if String.eqb k k' then (k', merged v) :: fs'
    else (k', v) :: upsert k merged fresh fs'
end.

(** Modelled from the spec: the merge primitive, a field-level deep merge.
    A scalar or a sequence of the patch replaces the target's field, a
    mapping of the patch is merged into a mapping of the target field by
    field. *)
Fixpoint mergeStrategic (patch target : Value) {struct patch} : Value :=
match patch with
| Mapping pfs =>
    match target with
    | Mapping tfs =>
        Mapping
          ((fix into (pfs tfs : list (string * Value)) {struct pfs} :=
              match pfs with
              | [] => tfs
              | (k, v) :: pfs' => into pfs' (upsert k (mergeStrategic v) v tfs)
              end) pfs tfs)
    | _ => patch
    end
| _ => patch
end.

(** The fields of [tfs] after the fields [pfs] of a patch are merged into them. *)
Fixpoint mergeFields (pfs tfs : list (string * Value)) : list (string * Value) :=
match pfs with
| [] => tfs
| (k, v) :: pfs' => mergeFields pfs' (upsert k (mergeStrategic v) v tfs)
end.

Record Document : Type := {
  id : resid.ResId;
  orgId : resid.ResId;
  body : Value
}.

Definition withName (n : string) (d : Document) : Document :=
{| id := {| resid.gvk := resid.gvk (id d); resid.Name := n;
            resid.Namespace := resid.Namespace (id d) |};
   orgId := orgId d; body := body d |}.

Definition withNamespace (ns : string) (d : Document) : Document :=
{| id := {| resid.gvk := resid.gvk (id d); resid.Name := resid.Name (id d);
            resid.Namespace := ns |};
   orgId := orgId d; body := body d |}.

Definition withGvk (g : resid.Gvk) (d : Document) : Document :=
{| id := {| resid.gvk := g; resid.Name := resid.Name (id d);
            resid.Namespace := resid.Namespace (id d) |};
   orgId := orgId d; body := body d |}.

(** Modelled from the spec: [mergeStrategic(patchDocument)] on a document.
    The patch document carries an identity, which the merge writes into the
    target like its other scalar fields, and a body, merged field by field. *)
Definition patched (target other : Document) : Document :=
{| id := id other; orgId := orgId target;
   body := mergeStrategic (body other) (body target) |}.

(** The canonical byte form of a document is left to a codec. *)
Record Codec : Type := {
  marshal : Document -> string * option error;
  unmarshal : string -> Document -> Document * option error
}.

Definition Methods (codec : Codec) : resource.Methods Document :=
{| resource.OrgId := orgId;
   resource.GetName := fun d => resid.Name (id d);
   resource.GetNamespace := fun d => resid.Namespace (id d);
   resource.GetGvk := fun d => resid.gvk (id d);
   resource.SetName := withName;
   resource.SetNamespace := withNamespace;
   resource.SetGvk := withGvk;
   resource.Patch := fun target other => (patched target other, None);
   resource.MarshalJSON := marshal codec;
   resource.UnmarshalJSON := unmarshal codec |}.

#[global] Instance Gvk_eq_dec : EqDecision resid.Gvk.
Proof. solve_decision. Defined.

#[global] Instance ResId_eq_dec : EqDecision resid.ResId.
Proof. solve_decision. Defined.

(** The positions, from [from] on, of the documents that satisfy [f]. *)
Fixpoint positions {A} (f : A -> bool) (l : list A) (from : nat) : list nat :=
match l with
| [] => []
| x :: l' => (if f x then [from] else []) ++ positions f l' (S from)
end.

(** Modelled from the spec: a selector is a predicate over documents; its
    evaluation by the collection can fail. *)
Record Selector : Type := {
  selects : Document -> bool;
  malformed : option error
}.

Definition TargetNotFound : error := Errorf "no unique document of that identity".

(** Modelled from the spec: the collection of [pkg/resmap].  [findByIdentity]
    gives the single document of that identity and fails when there is none
    or more than one; [selectByPredicate] gives the documents the selector
    matches, in the order of the collection. *)
Definition Collection : resmap.ResMap Document Selector :=
{| resmap.GetById := fun i ds =>
     match positions (fun d => bool_decide (id d = i)) ds 0 with
     | [ptr] => (Some ptr, None)
     | _ => (None, Some TargetNotFound)
     end;
   resmap.Select := fun s ds =>
     match malformed s with
     | Some e => ([], Some e)
     | None => (positions (selects s) ds 0, None)
     end |}.

(** The value found in [v] by following the field names of [path]. *)
Fixpoint at_path (path : list string) (v : Value) : option Value :=
match path with
| [] => Some v
| k :: rest =>
    match v with
    | Mapping fs =>
        match field k fs with
        | Some v' => at_path rest v'
        | None => None
        end
    | _ => None
    end
end.

(** The patch carries a field on [path]: it has a field there, or one of its
    scalars or sequences stands above it. *)
Fixpoint carries (patch : Value) (path : list string) {struct patch} : bool :=
match patch with
| Mapping pfs =>
    match path with
    | [] => true
    | k :: rest =>
        (fix any (pfs : list (string * Value)) : bool :=
           match pfs with
           | [] => false
           | (k', v) :: pfs' => (String.eqb k k' && carries v rest) || any pfs'
           end) pfs
    end
| _ => true
end.

(** The same over the fields of a mapping. *)
Fixpoint carried (k : string) (rest : list string) (pfs : list (string * Value)) : bool :=
match pfs with
| [] => false
| (k', v) :: pfs' => (String.eqb k k' && carries v rest) || carried k rest pfs'
end.

Section Stamping.

Context {Selector JPatch : Type}.

(** The patch document [lp] with the name, namespace and group/version/kind
    of [d] written over its own. *)
Definition stamp (d lp : Document) : Document :=
withGvk (resid.gvk (id d))
  (withNamespace (resid.Namespace (id d)) (withName (resid.Name (id d)) lp)).

(** The patch document handed to the merge primitive has the identity of
    its target [ds !! ptr] and the body of the patch [lp]. *)
Definition restamped (ds : list Document) (lp : Document)
    (e : @event Document Selector) : Prop :=
match e with
| CallPatch ptr other =>
    exists d, ds !! ptr = Some d /\ id other = id d /\ body other = body lp
| _ => True
end.

(** [d'] has the identity of [d], and the fields the patch does not carry. *)
Definition retains (lp d d' : Document) : Prop :=
id d' = id d /\ orgId d' = orgId d /\
forall path, carries (body lp) path = false ->
  at_path path (body d') = at_path path (body d).

End Stamping.

End model.



(** ** Sample collaborators

    Small collaborators to run the plugin on: documents whose canonical
    byte form is their scalar body, and a JSON Patch of one [test] and
    one [replace] on it. *)

Module sample.

Definition deployment : resid.Gvk :=
{| resid.Group := "apps"; resid.Version := "v1"; resid.Kind := "Deployment" |}.

Definition document (name : string) (body : model.Value) : model.Document :=
let i := {| resid.gvk := deployment; resid.Name := name; resid.Namespace := "default" |} in
{| model.id := i; model.orgId := i; model.body := body |}.

Definition codec : model.Codec :=
{| model.marshal := fun d =>
     match model.body d with
     | model.Scalar s => (s, None)
     | _ => ("", Some (Errorf "no canonical form"))
     end;
   model.unmarshal := fun buf d =>
     ({| model.id := model.id d; model.orgId := model.orgId d;
         model.body := model.Scalar buf |}, None) |}.

(** [test] that the document is [expected], then [replace] it by [replacement]. *)
Record Ops : Type := { expected : string; replacement : string }.

Definition jsonpatchLib : jsonpatch.Lib Ops :=
{| jsonpatch.DecodePatch := fun buf =>
     if starts_with_bracket buf
     then (Some {| expected := "1"; replacement := buf |}, None)
     else (None, Some (Errorf "not an array of operations"));
   jsonpatch.Apply := fun ops raw =>
     if String.eqb raw (expected ops) then (replacement ops, None)
     else (raw, Some (Errorf "testing value failed")) |}.

Abbreviation plugin := (@plugin model.Document model.Selector Ops).

(** A configuration that decodes to the fields of [q]; the conversion to
    JSON puts the body between brackets. *)
Definition yamlLib (q : plugin) : yaml.Lib plugin :=
{| yaml.Unmarshal := fun _ _ => (q, None);
   yaml.YAMLToJSON := fun body => ("[" +:+ body +:+ "]", None) |}.

Definition fields (path patch : string) (target : option model.Selector) : plugin :=
{| ldr := None; rf := None; loadedPatch := None; decodedPatch := None;
   Path := path; Patch := patch; Target := target |}.

(** A loader over the files [files]. *)
Fixpoint read (files : list (string * string)) (path : string) : string * option error :=
match files with
| [] => ("", Some (Errorf ("no such file " +:+ path)))
| (name, data) :: files' => if String.eqb path name then (data, None) else read files' path
end.

Definition loader (files : list (string * string)) : ifc.Loader :=
{| ifc.Load := read files |}.

(** A factory that decodes every body but the empty one to [d]. *)
Definition factory (d : model.Document) : resmap.Factory model.Document :=
{| resmap.RF := {| resource.FromBytes := fun body =>
     if isempty body then (None, Some (Errorf "expected 1 resource, found 0"))
     else (Some d, None) |} |}.

(** A factory that decodes nothing. *)
Definition no_factory : resmap.Factory model.Document :=
{| resmap.RF := {| resource.FromBytes := fun _ =>
     (None, Some (Errorf "not a document")) |} |}.

Definition everything : model.Selector :=
{| model.selects := fun _ => true; model.malformed := None |}.

Definition nothing : model.Selector :=
{| model.selects := fun _ => false; model.malformed := None |}.

Definition broken : model.Selector :=
{| model.selects := fun _ => true;
   model.malformed := Some (Errorf "error parsing regexp") |}.

(** Scenario A of the specification: the patch document and a collection. *)
Definition replicas3 : model.Document :=
document "x" (model.Mapping [("spec", model.Mapping [("replicas", model.Scalar "3")])]).

Definition workloads : list model.Document :=
[ document "x" (model.Mapping
    [("spec", model.Mapping [("replicas", model.Scalar "1"); ("image", model.Scalar "nginx")])]);
  document "y" (model.Mapping
    [("spec", model.Mapping [("replicas", model.Scalar "2")])]) ].

(** A document with a scalar body between two workloads. *)
Definition mixed : list model.Document :=
[ document "x" (model.Mapping
    [("spec", model.Mapping [("replicas", model.Scalar "1")])]);
  document "a" (model.Scalar "1");
  document "y" (model.Mapping
    [("spec", model.Mapping [("replicas", model.Scalar "2")])]) ].

(** Documents with a scalar body; the second has none. *)
Definition scalars : list model.Document :=
[ document "a" (model.Scalar "1");
  document "b" (model.Mapping []);
  document "c" (model.Scalar "1") ].

Definition methods : resource.Methods model.Document := model.Methods codec.

(** A configuration with an inline patch, and one with a path. *)
Definition inline (patch : string) (target : option model.Selector) : yaml.Lib plugin :=
yamlLib (fields "" patch target).

Definition fromFile (path : string) : yaml.Lib plugin :=
yamlLib (fields path "" None).

(** A plugin holding the strategic-merge patch of scenario A, and one
    holding a JSON Patch. *)
Definition merging (target : option model.Selector) : plugin :=
{| ldr := None; rf := None; loadedPatch := Some replicas3; decodedPatch := None;
   Path := ""; Patch := "spec: {replicas: 3}"; Target := target |}.

Definition replacing (target : option model.Selector) : plugin :=
{| ldr := None; rf := None; loadedPatch := None;
   decodedPatch := Some {| expected := "1"; replacement := "2" |};
   Path := ""; Patch := "[test, replace]"; Target := target |}.

(** A configuration that does not decode. *)
Definition undecodable : yaml.Lib plugin :=
{| yaml.Unmarshal := fun _ p => (p, Some (Errorf "error converting YAML to JSON"));
   yaml.YAMLToJSON := fun body => (body, None) |}.

(** Documents whose merge primitive refuses a target with a scalar body. *)
Definition fragile : resource.Methods model.Document :=
{| resource.OrgId := model.orgId;
   resource.GetName := fun d => resid.Name (model.id d);
   resource.GetNamespace := fun d => resid.Namespace (model.id d);
   resource.GetGvk := fun d => resid.gvk (model.id d);
   resource.SetName := model.withName;
   resource.SetNamespace := model.withNamespace;
   resource.SetGvk := model.withGvk;
   resource.Patch := fun target other =>
     match model.body target with
     | model.Scalar _ => (target, Some (Errorf "cannot merge into a scalar"))
     | _ => (model.patched target other, None)
     end;
   resource.MarshalJSON := model.marshal codec;
   resource.UnmarshalJSON := model.unmarshal codec |}.

(** A strategic-merge patch written for the document [a] of [scalars], and
    one for a document the collections do not hold. *)
Definition forA : plugin :=
{| ldr := None; rf := None;
   loadedPatch := Some (document "a" (model.Mapping [("spec", model.Scalar "s")]));
   decodedPatch := None; Path := ""; Patch := "spec: s"; Target := None |}.

Definition forZ : plugin :=
{| ldr := None; rf := None;
   loadedPatch := Some (document "z" (model.Mapping [("spec", model.Scalar "s")]));
   decodedPatch := None; Path := ""; Patch := "spec: s"; Target := None |}.

Definition onlyA : model.Selector :=
{| model.selects := fun d => String.eqb (resid.Name (model.id d)) "a";
   model.malformed := None |}.

Definition notB : model.Selector :=
{| model.selects := fun d => negb (String.eqb (resid.Name (model.id d)) "b");
   model.malformed := None |}.

End sample.


(** * Properties *)

(** ** For every implementation of the collaborators *)

(** One step of a run: the statements and the calls on the collaborators unfold. *)
Ltac go :=
  cbv beta iota zeta delta
    [mbind mret Go_bind Go_ret pure return_ panic when call
     get_plug get_docs assign log deref store start
     yaml_Unmarshal ldr_Load p_rf_RF_FromBytes yaml_YAMLToJSON jsonpatch_DecodePatch
     m_GetById m_Select at_ptr ptr_Patch ptr_MarshalJSON ptr_UnmarshalJSON
     p_loadedPatch p_loadedPatch_set p_decodedPatch_Apply index0
     plug docs trace isempty nonempty notnil isnil negb andb];
  cbn [app exported_from bound with_ldr with_rf with_loadedPatch with_decodedPatch
       ldr rf loadedPatch decodedPatch Path Patch Target].

Section Properties.
Context {R Selector JPatch : Type}.
Context {methods : resource.Methods R} {yamlLib : yaml.Lib (@plugin R Selector JPatch)}
  {jsonpatchLib : jsonpatch.Lib JPatch}.

Abbreviation W := (@world R Selector JPatch).

Lemma isempty_true s : isempty s = true <-> s = "".
Proof. destruct s; simpl; split; congruence. Qed.

Lemma isempty_false s : isempty s = false <-> s <> "".
Proof. destruct s; simpl; split; congruence. Qed.

Lemma jsonPatchFromBytes_run body (w : W) :
  exists r calls, JsonRun body r calls /\
    jsonPatchFromBytes body w = (Return r, World (plug w) (docs w) (trace w ++ calls)).
Proof.
  destruct w as [p m t]. destruct body as [|a s].
  - eexists _, _. split; [now apply json_empty|]. unfold jsonPatchFromBytes. go. now rewrite app_nil_r.
  - unfold jsonPatchFromBytes. go.
    destruct (Ascii.eqb a "[") eqn:Ea; go.
    + eexists _, _. split; [now apply json_direct|]. reflexivity.
    + destruct (yaml.YAMLToJSON (String a s)) as [json [e|]] eqn:Ey; go.
      * eexists _, _. split; [eapply json_unconverted; eauto; discriminate|]. reflexivity.
      * eexists _, _. split; [eapply json_converted; eauto; discriminate|].
        now rewrite <- app_assoc.
Qed.

Lemma JsonRun_fun body r1 r2 (c1 c2 : list (@event R Selector)) :
  JsonRun body r1 c1 -> JsonRun body r2 c2 -> r1 = r2 /\ c1 = c2.
Proof.
  intros J1 J2.
  destruct J1; destruct J2; subst; simpl in *; try congruence; try done.
  all: match goal with
       | A : ?x = (_, _), B : ?x = (_, _) |- _ =>
           rewrite A in B; simplify_eq; split; reflexivity
       end.
Qed.

Lemma jsonPatchFromBytes_result_run body (w : W) :
  exists r calls, JsonRun body r calls /\ jsonPatchFromBytes_result body = Return r /\
    jsonPatchFromBytes body w = (Return r, World (plug w) (docs w) (trace w ++ calls)).
Proof.
  destruct (jsonPatchFromBytes_run body w) as (r & calls & Hr & E).
  destruct (jsonPatchFromBytes_run body (start KustomizePlugin [])) as (r' & calls' & Hr' & E').
  exists r, calls. split; [done|]. split; [|done].
  unfold jsonPatchFromBytes_result. rewrite E'. simpl.
  f_equal. symmetry. now apply (JsonRun_fun body _ _ _ _ Hr Hr').
Qed.

Lemma Config_run loader factory c (p : plugin) (m : list R) :
  exists out p' calls, ConfigRun loader factory c p out p' calls /\
    Config loader factory c (start p m) = (out, World p' m calls).
Proof.
  unfold Config. go. fold (bound loader factory p).
  destruct (yaml.Unmarshal c (bound loader factory p)) as [q [e|]] eqn:EU; go.
  { eexists _, _, _. split; [eapply config_undecoded; eauto|]. reflexivity. }
  destruct (Patch q) as [|a1 s1] eqn:EP; destruct (Path q) as [|a2 s2] eqn:EQ; go.
  - eexists _, _, _. split; [eapply config_missing; eauto|]. reflexivity.
  - destruct (ifc.Load loader (String a2 s2)) as [data [e|]] eqn:EL; go.
    + eexists _, _, _. split; [eapply config_unloaded; rewrite ?EP, ?EQ; eauto; congruence|].
      now rewrite EQ.
    + destruct (resource.FromBytes (resmap.RF factory) data) as [patchSM errSM] eqn:ES; go.
      match goal with |- context [jsonPatchFromBytes data ?w] =>
        destruct (jsonPatchFromBytes_result_run data w) as ([patchJson errJson] & calls & HJ & HR & ->)
      end.
      eexists _, _, _. split.
      * eapply config_classified; eauto. apply resolved_loaded; rewrite ?EP, ?EQ; eauto; congruence.
      * rewrite EP, EQ. destruct errSM, errJson; reflexivity.
  - destruct (resource.FromBytes (resmap.RF factory) (String a1 s1)) as [patchSM errSM] eqn:ES; go.
    match goal with |- context [jsonPatchFromBytes ?b ?w] =>
      destruct (jsonPatchFromBytes_result_run b w) as ([patchJson errJson] & calls & HJ & HR & ->)
    end.
    eexists _, _, _. split.
    * eapply config_classified; eauto. rewrite <- EP. apply resolved_inline; rewrite ?EP, ?EQ; eauto; congruence.
    * rewrite EP. destruct errSM, errJson; reflexivity.
  - eexists _, _, _. split; [eapply config_conflicting; rewrite ?EP, ?EQ; eauto; congruence|]. reflexivity.
Qed.

Lemma JsonRun_calls body r (calls : list (@event R Selector)) :
  JsonRun body r calls ->
  forallb is_decoder_call calls = true /\ existsb is_CallLoad calls = false
  /\ resolved_body calls = None.
Proof. destruct 1; repeat split; reflexivity. Qed.

Lemma Resolved_body loader (q : @plugin R Selector JPatch) body (pre calls : list (@event R Selector)) :
  Resolved loader q body pre ->
  resolved_body (pre ++ CallFromBytes body :: calls) = Some body.
Proof. destruct 1; reflexivity. Qed.

Lemma decodesJSONPatch_result body (pj : option JPatch) ej :
  jsonPatchFromBytes_result body = Return (pj, ej) ->
  decodesJSONPatch body = isnil ej.
Proof. unfold decodesJSONPatch. intros ->. now destruct ej. Qed.

(** C1, as the code has it.  Whenever the body [Config] classifies decodes
    both as a strategic-merge document and as a JSON Patch, [Config]
    returns nil, not the error [AmbiguousPatchType]: the error is assigned
    to the named result and [return nil] follows. *)
Theorem Config_ambiguous_returns_nil loader factory c (p : plugin) (m : list R) body :
  resolved_body (trace (snd (Config loader factory c (start p m)))) = Some body ->
  decodesStrategicMerge factory body = true ->
  decodesJSONPatch body = true ->
  fst (Config loader factory c (start p m)) = Return None.
Proof.
  destruct (Config_run loader factory c p m) as (out & p' & calls & Hrun & ->).
  cbn [fst snd trace]. intros Hbody HSM HJP.
  destruct Hrun as [ | | | | q body' pre patchSM errSM patchJson errJson calls HU HR HS HJ HJR];
    try discriminate Hbody.
  cbn [resolved_body] in Hbody. rewrite (Resolved_body _ _ _ _ _ HR) in Hbody.
  injection Hbody as ->.
  unfold decodesStrategicMerge in HSM. rewrite HS in HSM. cbn in HSM.
  rewrite (decodesJSONPatch_result _ _ _ HJR) in HJP.
  destruct errSM, errJson; try discriminate. reflexivity.
Qed.

(** C4, as the code has it.  On a plugin that holds no patch yet, the
    classification of the resolved body ends in one of four ways, and never
    stores both variants: the strategic-merge document alone is stored, the
    JSON Patch alone is stored, [UnrecognizedPatchFormat] is returned, or,
    when both decoders succeed, nil is returned with neither variant stored
    (where the claim has the error [AmbiguousPatchType]). *)
Theorem Config_classification loader factory c (p : plugin) (m : list R) body :
  loadedPatch p = None -> decodedPatch p = None ->
  resolved_body (trace (snd (Config loader factory c (start p m)))) = Some body ->
  let out := fst (Config loader factory c (start p m)) in
  let p' := plug (snd (Config loader factory c (start p m))) in
  match decodesStrategicMerge factory body, decodesJSONPatch body with
  | true, false =>
      out = Return None /\ decodedPatch p' = None /\
      loadedPatch p' = fst (resource.FromBytes (resmap.RF factory) body)
  | false, true =>
      out = Return None /\ loadedPatch p' = None /\
      decodedPatch p' = decodedJSONPatch body
  | false, false =>
      out = Return (Some (UnrecognizedPatchFormat (Patch p'))) /\
      loadedPatch p' = None /\ decodedPatch p' = None
  | true, true =>
      out = Return None /\ loadedPatch p' = None /\ decodedPatch p' = None
  end.
Proof.
  intros HL HD.
  destruct (Config_run loader factory c p m) as (out & p' & calls & Hrun & ->).
  cbn [fst snd trace plug]. intros Hbody.
  destruct Hrun as [ | | | | q body' pre patchSM errSM patchJson errJson calls HU HR HS HJ HJR];
    try discriminate Hbody.
  cbn [resolved_body] in Hbody. rewrite (Resolved_body _ _ _ _ _ HR) in Hbody.
  injection Hbody as ->.
  unfold decodesStrategicMerge, decodedJSONPatch.
  rewrite HS, (decodesJSONPatch_result _ _ _ HJR), HJR. cbn [fst snd].
  destruct errSM, errJson; cbn; rewrite ?HL, ?HD; auto.
Qed.

(** C9.  For a configuration with the path field set, when the loader is
    called and fails, [Config] returns the loader's error as it is (not
    wrapped), and the calls of the whole run are the decoding of the
    configuration and that one call of the loader: the loader is not called
    again, and no call on a decoder of the classification ([FromBytes],
    [YAMLToJSON], [DecodePatch]) is made. *)
Theorem Config_loader_error loader factory c (p : plugin) (m : list R) e :
  let out := fst (Config loader factory c (start p m)) in
  let w' := snd (Config loader factory c (start p m)) in
  nonempty (Path (plug w')) = true ->
  existsb is_CallLoad (trace w') = true ->
  snd (ifc.Load loader (Path (plug w'))) = Some e ->
  out = Return (Some e) /\
  trace w' = [CallUnmarshal c; CallLoad (Path (plug w'))] /\
  existsb is_decoder_call (trace w') = false.
Proof.
  destruct (Config_run loader factory c p m) as (out & p' & calls & Hrun & ->).
  cbn [fst snd trace plug]. intros Hpath Hload Hfail.
  destruct Hrun as [ | | | q data e' HU HP HQ HL
                   | q body' pre patchSM errSM patchJson errJson calls HU HR HS HJ HJR];
    try discriminate Hload.
  - cbn in Hfail. rewrite HL in Hfail. cbn in Hfail. injection Hfail as ->.
    repeat split.
  - exfalso. destruct (JsonRun_calls _ _ _ HJ) as (_ & HnoL & _).
    assert (Path (stored patchSM errSM patchJson errJson (exported_from q (bound loader factory p)))
            = Path q) as HPq by (unfold stored; destruct errSM, errJson; reflexivity).
    rewrite HPq in Hfail.
    destruct HR as [HP HQ | data HP HQ HL].
    + cbn in Hload. congruence.
    + rewrite HL in Hfail. discriminate.
Qed.

(** C3, amended.  For a configuration that decodes to the fields [q]: with
    neither [patch] nor [path] set [Config] fails with [MissingPatchSource];
    with both set it fails with [ConflictingPatchSource]; with [patch] alone
    the source resolves to the inline text; with [path] alone it resolves to
    what the loader gives when the loader succeeds, and [Config] returns the
    loader's error, with no source resolved, when it fails. *)
Theorem Config_source_trichotomy loader factory c (p : plugin) (m : list R) (q : @plugin R Selector JPatch) :
  yaml.Unmarshal c (bound loader factory p) = (q, None) ->
  let out := fst (Config loader factory c (start p m)) in
  let calls := trace (snd (Config loader factory c (start p m))) in
  match isempty (Patch q), isempty (Path q) with
  | true, true => out = Return (Some (MissingPatchSource c)) /\ resolved_body calls = None
  | false, false => out = Return (Some (ConflictingPatchSource c)) /\ resolved_body calls = None
  | false, true => resolved_body calls = Some (Patch q)
  | true, false =>
      match ifc.Load loader (Path q) with
      | (data, None) => resolved_body calls = Some data
      | (_, Some e) => out = Return (Some e) /\ resolved_body calls = None
      end
  end.
Proof.
  intros HU.
  destruct (Config_run loader factory c p m) as (out & p' & calls & Hrun & ->).
  cbn [fst snd trace plug].
  destruct Hrun as [ q' e' HU' | q' HU' HP HQ | q' HU' HP HQ | q' data e' HU' HP HQ HL
                   | q' body' pre patchSM errSM patchJson errJson calls HU' HR HS HJ HJR];
    rewrite HU in HU'; simplify_eq.
  - rewrite HP, HQ. cbn. auto.
  - apply isempty_false in HP, HQ. rewrite HP, HQ. cbn. auto.
  - apply isempty_false in HQ. rewrite HP, HQ, HL. cbn. auto.
  - cbn [resolved_body]. rewrite (Resolved_body _ _ _ _ _ HR).
    destruct HR as [HP HQ | data HP HQ HL].
    + apply isempty_false in HP. rewrite HP, HQ. reflexivity.
    + apply isempty_false in HQ. rewrite HP, HQ, HL. reflexivity.
Qed.


Lemma Transform_body_idle ptr (w : W) :
  loadedPatch (plug w) = None -> decodedPatch (plug w) = None ->
  Transform_body ptr w = (Next tt, w).
Proof.
  destruct w as [p m t]. cbn [plug]. intros HL HD.
  unfold Transform_body. go. rewrite HL, HD. reflexivity.
Qed.

Lemma for_range_idle (l : list nat) (w : W) :
  loadedPatch (plug w) = None -> decodedPatch (plug w) = None ->
  for_range l Transform_body w = (Next tt, w).
Proof.
  intros HL HD. induction l as [|ptr l IH]; [reflexivity|].
  cbn [for_range]. unfold mbind, Go_bind.
  now rewrite Transform_body_idle.
Qed.

Lemma for_range_app {T X} (l1 l2 : list X) (body : X -> Go T unit) (w : W) :
  for_range (l1 ++ l2) body w =
  match for_range l1 body w with
  | (Next _, w1) => for_range l2 body w1
  | (Return t, w1) => (Return t, w1)
  | (Panic, w1) => (Panic, w1)
  end.
Proof.
  revert w. induction l1 as [|x l1 IH]; intros w; [reflexivity|].
  cbn [app for_range]. unfold mbind, Go_bind.
  destruct (body x w) as [[[]|t|] w1]; [apply IH|reflexivity|reflexivity].
Qed.

Lemma Transform_selected m (w : W) sel :
  Target (plug w) = Some sel ->
  Transform m w =
  let w1 := World (plug w) (docs w) (trace w ++ [CallSelect sel]) in
  match resmap.Select m sel (docs w) with
  | (_, Some e) => (Return (Some e), w1)
  | (resources, None) =>
      match for_range resources Transform_body w1 with
      | (Next _, w') => (Return None, w')
      | (Return t, w') => (Return t, w')
      | (Panic, w') => (Panic, w')
      end
  end.
Proof.
  destruct w as [p ds t]. cbn [plug docs trace]. intros HT.
  unfold Transform. go. rewrite HT.
  replace (if match loadedPatch p with Some _ => true | None => false end
           then false else false) with false by now destruct (loadedPatch p).
  go. destruct (resmap.Select m sel ds) as [l [e|]]; go; [reflexivity|].
  destruct (for_range l Transform_body _) as [[[]|t'|] w']; reflexivity.
Qed.

Section Keeps.
Variable rel : W -> W -> Prop.
Hypothesis rel_refl : forall w, rel w w.
Hypothesis rel_trans : forall w1 w2 w3, rel w1 w2 -> rel w2 w3 -> rel w1 w3.

Lemma keeps_bind {T A B} (m : Go T A) (f : A -> Go T B) :
  keeps rel m -> (forall a, keeps rel (f a)) -> keeps rel (m ≫= f).
Proof.
  intros Hm Hf w. unfold mbind, Go_bind. specialize (Hm w).
  destruct (m w) as [[a|t|] w1]; cbn [snd] in *; [|assumption|assumption].
  eapply rel_trans; [eassumption|apply Hf].
Qed.

Lemma keeps_pure {T A} (a : A) : keeps rel (pure (T := T) a).
Proof. intros w. apply rel_refl. Qed.

Lemma keeps_return {T A} (t : T) : keeps rel (return_ (A := A) t).
Proof. intros w. apply rel_refl. Qed.

Lemma keeps_panic {T A} : keeps rel (panic (T := T) (A := A)).
Proof. intros w. apply rel_refl. Qed.

Lemma keeps_when {T} b (s : Go T unit) : keeps rel s -> keeps rel (when b s).
Proof. intros Hs. destruct b; [exact Hs|apply keeps_pure]. Qed.

Lemma keeps_get_plug {T} : keeps rel (get_plug (T := T)).
Proof. intros w. apply rel_refl. Qed.

Lemma keeps_get_docs {T} : keeps rel (get_docs (T := T)).
Proof. intros w. apply rel_refl. Qed.

Lemma keeps_deref {T} ptr : keeps rel (deref (T := T) ptr).
Proof. intros w. unfold deref. destruct (docs w !! ptr); apply rel_refl. Qed.

Lemma keeps_for_range {T X} (l : list X) (body : X -> Go T unit) :
  (forall x, keeps rel (body x)) -> keeps rel (for_range l body).
Proof.
  intros Hb. induction l as [|x l IH]; [apply keeps_pure|].
  cbn [for_range]. apply keeps_bind; [apply Hb|intros _; exact IH].
Qed.
End Keeps.

Lemma Transform_body_frame ptr (w : W) :
  let w' := snd (Transform_body ptr w) in
  length (docs w') = length (docs w) /\
  forall j, j <> ptr -> docs w' !! j = docs w !! j.
Proof.
  set (rel := fun w w' : W => length (docs w') = length (docs w) /\
                forall j, j <> ptr -> docs w' !! j = docs w !! j).
  assert (Hrefl : forall w, rel w w) by (intros ?; split; auto).
  assert (Htrans : forall w1 w2 w3, rel w1 w2 -> rel w2 w3 -> rel w1 w3).
  { intros w1 w2 w3 [L1 F1] [L2 F2]. split; [congruence|].
    intros j Hj. rewrite F2, F1; auto. }
  assert (Hlog : forall T e, keeps rel (log (T := T) e)) by (intros T e w0; split; cbn; auto).
  assert (Hassign : forall T f, keeps rel (assign (T := T) f)) by (intros T f w0; split; cbn; auto).
  assert (Hstore : forall T r, keeps rel (store (T := T) ptr r)).
  { intros T r w0. split; cbn; [apply length_insert|].
    intros j Hj. apply list_lookup_insert_ne. congruence. }
  enough (keeps rel (Transform_body ptr)) as Hk by apply Hk.
  unfold Transform_body, ptr_MarshalJSON, ptr_UnmarshalJSON, ptr_Patch, at_ptr,
    p_decodedPatch_Apply, p_loadedPatch_set, p_loadedPatch.
  repeat first
    [ apply (keeps_bind rel Htrans); [|intros ?]
    | apply (keeps_when rel Hrefl)
    | apply (keeps_pure rel Hrefl) | apply (keeps_return rel Hrefl)
    | apply (keeps_panic rel Hrefl)
    | apply (keeps_get_plug rel Hrefl) | apply (keeps_deref rel Hrefl)
    | apply Hlog | apply Hassign | apply Hstore
    | match goal with
      | |- keeps _ (match ?x with _ => _ end) => destruct x
      end ].
Qed.
Lemma for_range_frame (l : list nat) : forall w : W,
  let w' := snd (for_range l Transform_body w) in
  length (docs w') = length (docs w) /\
  forall j, j ∉ l -> docs w' !! j = docs w !! j.
Proof.
  induction l as [|ptr l IH]; intros w; [split; reflexivity|].
  cbn [for_range]. unfold mbind, Go_bind.
  pose proof (Transform_body_frame ptr w) as [Hlen Hfr].
  destruct (Transform_body ptr w) as [[[]|t|] w1]; cbn [snd] in *.
  - destruct (IH w1) as [Hlen' Hfr']. split; [congruence|].
    intros j Hj. apply not_elem_of_cons in Hj as [Hne Hj].
    rewrite Hfr', Hfr; auto.
  - split; [assumption|]. intros j Hj. apply not_elem_of_cons in Hj as [Hne Hj]. auto.
  - split; [assumption|]. intros j Hj. apply not_elem_of_cons in Hj as [Hne Hj]. auto.
Qed.

Lemma trimmed_bracket body :
  starts_with_bracket body = true -> starts_with_bracket (trimmed body) = true.
Proof.
  destruct body as [|a s]; [discriminate|]. cbn [starts_with_bracket]. intros Ha.
  apply Ascii.eqb_eq in Ha. subst a. unfold trimmed. cbn [trimLeft].
  change (isSpace "[") with false. cbn [trimRight].
  change (isSpace "[") with false. destruct (trimRight s); reflexivity.
Qed.

(** C5, amended.  For a non-empty body, the JSON-Patch attempt looks at the
    first byte of the body as it is, untrimmed.  When it is not an opening
    bracket (so in particular when the trimmed body does not start with
    one) the body is first converted from YAML to JSON and the result is
    decoded, and a failed conversion fails the attempt with no decoding;
    when it is an opening bracket the body is decoded directly, without
    conversion. *)
Theorem jsonPatchFromBytes_first_byte body (p : plugin) (m : list R) :
  isempty body = false ->
  let out := fst (jsonPatchFromBytes body (start p m)) in
  let calls := trace (snd (jsonPatchFromBytes body (start p m))) in
  (starts_with_bracket (trimmed body) = false -> starts_with_bracket body = false) /\
  if starts_with_bracket body
  then out = Return (jsonpatch.DecodePatch body) /\ calls = [CallDecodePatch body]
  else match yaml.YAMLToJSON (T := plugin) body with
       | (_, Some e) => out = Return (None, Some e) /\ calls = [CallYAMLToJSON body]
       | (json, None) =>
           out = Return (jsonpatch.DecodePatch json) /\
           calls = [CallYAMLToJSON body; CallDecodePatch json]
       end.
Proof.
  intros Hne. split.
  { intros Ht. destruct (starts_with_bracket body) eqn:Hb; [|reflexivity].
    now rewrite (trimmed_bracket _ Hb) in Ht. }
  destruct (jsonPatchFromBytes_run body (start p m)) as (r & calls & Hrun & ->).
  cbn [fst snd trace start app].
  destruct Hrun as [-> | Hb | json e Hn Hb Hy | json Hn Hb Hy].
  - discriminate.
  - rewrite Hb. auto.
  - rewrite Hb, Hy. auto.
  - rewrite Hb, Hy. auto.
Qed.

(** When the body of the loop returns on the document [ptr], after the
    documents [l1], [Transform] returns what it returns, in the world it
    left, and only the document [ptr] differs from what [l1] left. *)
Theorem Transform_aborts_at_first_failure m (w : W) sel l1 ptr l2 w1 e w2 :
  Target (plug w) = Some sel ->
  resmap.Select m sel (docs w) = ((l1 ++ ptr :: l2)%list, None) ->
  for_range l1 Transform_body (World (plug w) (docs w) (trace w ++ [CallSelect sel]))
    = (Next tt, w1) ->
  Transform_body ptr w1 = (Return (Some e), w2) ->
  Transform m w = (Return (Some e), w2)
  /\ (forall j, j <> ptr -> docs w2 !! j = docs w1 !! j)
  /\ (forall j, j ∉ l1 -> j <> ptr -> docs w2 !! j = docs w !! j).
Proof.
  intros HT HS Hpre Hfail.
  pose proof (Transform_body_frame ptr w1) as [_ Hfr]. rewrite Hfail in Hfr. cbn [snd] in Hfr.
  pose proof (for_range_frame l1 (World (plug w) (docs w) (trace w ++ [CallSelect sel])))
    as [_ Hfr1].
  rewrite Hpre in Hfr1. cbn [snd docs] in Hfr1.
  repeat split.
  - rewrite (Transform_selected m w sel HT). cbn zeta. rewrite HS.
    rewrite for_range_app, Hpre. cbn [for_range]. unfold mbind, Go_bind.
    now rewrite Hfail.
  - exact Hfr.
  - intros j Hj Hne. rewrite Hfr, Hfr1; auto.
Qed.

(** A failing collaborator makes the body of the loop return its error. *)
Lemma PatchFails_returns ptr (w : W) e w2 :
  PatchFails w ptr e w2 -> Transform_body ptr w = (Return (Some e), w2).
Proof.
  destruct w as [p ds t]. unfold Transform_body.
  intros [ops d raw e0 HD Hd HM
         |ops d raw modified e0 HD Hd HM HA
         |ops d raw modified d' e0 HD Hd HM HA HU
         |lp d d' e0 HD HL Hd HP
         |ops lp d raw modified d1 d' e0 HD HL Hd HM HA HU HP];
    cbn [plug docs trace] in *.
  - repeat (go; rewrite ?HD, ?Hd, ?HM). reflexivity.
  - repeat (go; rewrite ?HD, ?Hd, ?HM, ?HA). now rewrite <- !app_assoc.
  - repeat (go; rewrite ?HD, ?Hd, ?HM, ?HA, ?HU). now rewrite <- !app_assoc.
  - unfold restamp in *. repeat (go; rewrite ?HD, ?HL, ?Hd, ?HP). reflexivity.
  - assert (<[ptr := d1]> ds !! ptr = Some d1) as Hd1.
    { apply list_lookup_insert_eq. eapply lookup_lt_Some; eassumption. }
    unfold restamp in *.
    repeat (go; rewrite ?HD, ?HL, ?Hd, ?HM, ?HA, ?HU, ?Hd1, ?HP).
    now rewrite <- !app_assoc.
Qed.

(** C7.  [Transform] goes through the selected documents in the order the
    collection lists them.  When the documents [l1] have been processed and
    a collaborator fails on the next one, [ptr] (its serialization, the
    application of the JSON Patch, the reading back, or the merge),
    [Transform] returns that error at once, in the world the failed call
    left: the documents after it are never reached (every document outside
    [l1] and other than [ptr] is as before the call), and the documents of
    [l1] stay as their own processing left them. *)
Theorem Transform_aborts_when_a_collaborator_fails m (w : W) sel l1 ptr l2 w1 e w2 :
  Target (plug w) = Some sel ->
  resmap.Select m sel (docs w) = ((l1 ++ ptr :: l2)%list, None) ->
  for_range l1 Transform_body (World (plug w) (docs w) (trace w ++ [CallSelect sel]))
    = (Next tt, w1) ->
  PatchFails w1 ptr e w2 ->
  Transform m w = (Return (Some e), w2)
  /\ (forall j, j <> ptr -> docs w2 !! j = docs w1 !! j)
  /\ (forall j, j ∉ l1 -> j <> ptr -> docs w2 !! j = docs w !! j).
Proof.
  intros HT HS Hpre Hfail.
  apply (Transform_aborts_at_first_failure m w sel l1 ptr l2 w1 e w2 HT HS Hpre).
  now apply PatchFails_returns.
Qed.
(** C8.  With a selector configured: when its evaluation gives no document,
    [Transform] returns nil and changes neither a document nor the plugin
    (the only call made is [Select]); when its evaluation fails, [Transform]
    returns that error as it is, again with nothing changed. *)
Theorem Transform_empty_or_failed_selection m (w : W) sel :
  Target (plug w) = Some sel ->
  let w' := World (plug w) (docs w) (trace w ++ [CallSelect sel]) in
  (resmap.Select m sel (docs w) = ([], None) -> Transform m w = (Return None, w'))
  /\ (forall l e, resmap.Select m sel (docs w) = (l, Some e) ->
        Transform m w = (Return (Some e), w')).
Proof.
  intros HT. cbn zeta. rewrite (Transform_selected m w sel HT). cbn zeta. split.
  - intros ->. reflexivity.
  - intros l e ->. reflexivity.
Qed.

(** When both decoders accept the body, the classification stores nothing. *)
Lemma Config_ambiguous_stores_nothing loader factory c (p : plugin) (m : list R) body :
  loadedPatch p = None -> decodedPatch p = None ->
  let w1 := snd (Config loader factory c (start p m)) in
  resolved_body (trace w1) = Some body ->
  decodesStrategicMerge factory body = true ->
  decodesJSONPatch body = true ->
  loadedPatch (plug w1) = None /\ decodedPatch (plug w1) = None.
Proof.
  intros HL HD.
  destruct (Config_run loader factory c p m) as (out & p' & calls & Hrun & ->).
  cbn [snd trace plug]. intros Hbody HSM HJP.
  destruct Hrun as [ | | | | q body' pre patchSM errSM patchJson errJson calls HU HR HS HJ HJR];
    try discriminate Hbody.
  cbn [resolved_body] in Hbody. rewrite (Resolved_body _ _ _ _ _ HR) in Hbody.
  injection Hbody as ->.
  unfold decodesStrategicMerge in HSM. rewrite HS in HSM. cbn in HSM.
  rewrite (decodesJSONPatch_result _ _ _ HJR) in HJP.
  destruct errSM, errJson; try discriminate. cbn. auto.
Qed.

(** C10, amended.  On a plugin that holds no patch yet, when the body
    [Config] classifies decodes both ways neither variant is stored; a
    [Transform] with a selector that follows leaves every document as it
    is, and returns what the evaluation of the selector returns: nil when
    it succeeds, its error when it fails. *)
Theorem Config_ambiguous_then_Transform loader factory c (p : plugin) (m : list R) rm body sel :
  loadedPatch p = None -> decodedPatch p = None ->
  let w1 := snd (Config loader factory c (start p m)) in
  resolved_body (trace w1) = Some body ->
  decodesStrategicMerge factory body = true ->
  decodesJSONPatch body = true ->
  loadedPatch (plug w1) = None /\ decodedPatch (plug w1) = None /\
  (Target (plug w1) = Some sel ->
   docs (snd (Transform rm w1)) = m /\
   fst (Transform rm w1) = Return (snd (resmap.Select rm sel m))).
Proof.
  intros HL HD w1 Hbody HSM HJP.
  pose proof (Config_ambiguous_stores_nothing loader factory c p m body HL HD Hbody
                HSM HJP) as [HL1 HD1].
  fold w1 in HL1, HD1. split; [exact HL1|]. split; [exact HD1|].
  intros HT. rewrite (Transform_selected rm w1 sel HT). cbn zeta.
  assert (docs w1 = m) as Hm.
  { subst w1. destruct (Config_run loader factory c p m) as (out & p' & calls & _ & ->).
    reflexivity. }
  rewrite Hm. destruct (resmap.Select rm sel m) as [l [e|]]; cbn [snd fst docs]; [auto|].
  rewrite for_range_idle by assumption. cbn [snd fst docs]. auto.
Qed.

(** C2, as the code has it.  With a strategic-merge patch and no selector,
    when the collection finds the one document of the patch's identity and
    the merge succeeds, [Transform] merges the patch into that document and
    then returns the error [MissingTarget] instead of nil: no [return]
    ends the implicit-target branch. *)
Theorem Transform_implicit_target_then_MissingTarget m (w : W) lp ptr d d' :
  loadedPatch (plug w) = Some lp -> Target (plug w) = None ->
  resmap.GetById m (resource.OrgId lp) (docs w) = (Some ptr, None) ->
  docs w !! ptr = Some d -> resource.Patch d lp = (d', None) ->
  Transform m w =
  (Return (Some (MissingTarget (Patch (plug w)))),
   World (plug w) (<[ptr := d']> (docs w))
     (trace w ++ [CallGetById (resource.OrgId lp); CallPatch ptr lp])).
Proof.
  destruct w as [p ds t]. cbn [plug docs trace]. intros HL HT HG Hd HP.
  unfold Transform. repeat (go; rewrite ?HL, ?HT, ?HG, ?Hd, ?HP).
  now rewrite <- app_assoc.
Qed.
End Properties.

(** ** The merge primitive of the document model *)

Module model_facts.
Import model.

Lemma mergeStrategic_mappings pfs tfs :
  mergeStrategic (Mapping pfs) (Mapping tfs) = Mapping (mergeFields pfs tfs).
Proof. reflexivity. Qed.

Lemma carries_mapping pfs k rest :
  carries (Mapping pfs) (k :: rest) = carried k rest pfs.
Proof.
  induction pfs as [|[k' v] pfs IH]; [reflexivity|].
  cbn [carried]. rewrite <- IH. reflexivity.
Qed.

Lemma field_upsert_ne k k' merged fresh fs :
  k <> k' -> field k (upsert k' merged fresh fs) = field k fs.
Proof.
  intros Hne. induction fs as [|[k0 v0] fs IH]; cbn.
  - destruct (String.eqb_spec k k'); [contradiction|reflexivity].
  - destruct (String.eqb_spec k' k0) as [->|Hk0]; cbn.
    + destruct (String.eqb_spec k k0); [contradiction|reflexivity].
    + destruct (String.eqb_spec k k0); [reflexivity|exact IH].
Qed.

Lemma field_upsert_eq k merged fresh fs :
  field k (upsert k merged fresh fs) =
  Some (match field k fs with Some old => merged old | None => fresh end).
Proof.
  induction fs as [|[k0 v0] fs IH]; cbn.
  - now rewrite String.eqb_refl.
  - destruct (String.eqb_spec k k0) as [->|Hk0]; cbn.
    + now rewrite String.eqb_refl.
    + destruct (String.eqb_spec k k0); [contradiction|exact IH].
Qed.

(** A patch that carries nothing on a path has nothing there. *)
Lemma carries_at_path path : forall patch,
  carries patch path = false -> at_path path patch = None.
Proof.
  induction path as [|k rest IH]; intros patch Hc.
  - destruct patch; discriminate.
  - destruct patch as [s|items|pfs]; try discriminate.
    rewrite carries_mapping in Hc. cbn [at_path].
    induction pfs as [|[k' v] pfs IHp]; [reflexivity|].
    cbn in Hc. apply orb_false_iff in Hc as [Hhead Htail]. cbn [field].
    destruct (String.eqb_spec k k') as [->|Hk]; cbn in Hhead.
    + now apply IH.
    + now apply IHp.
Qed.

Lemma mergeStrategic_frame path : forall patch target,
  carries patch path = false ->
  at_path path (mergeStrategic patch target) = at_path path target.
Proof.
  induction path as [|k rest IH]; intros patch target Hc.
  - destruct patch; discriminate.
  - destruct patch as [s|items|pfs]; try discriminate.
    destruct target as [s|items|tfs];
      [change (at_path (k :: rest) (Mapping pfs) = None);
       now apply carries_at_path..|].
    rewrite mergeStrategic_mappings. rewrite carries_mapping in Hc. cbn [at_path].
    revert tfs. induction pfs as [|[k' v] pfs IHp]; intros tfs; [reflexivity|].
    cbn in Hc. apply orb_false_iff in Hc as [Hhead Htail].
    cbn [mergeFields]. rewrite (IHp Htail).
    destruct (String.eqb_spec k k') as [->|Hk]; cbn in Hhead.
    + rewrite field_upsert_eq. destruct (field k' tfs) as [old|].
      * now apply IH.
      * now apply carries_at_path.
    + now rewrite field_upsert_ne.
Qed.
Lemma positions_bounds {A} (f : A -> bool) (l : list A) : forall from,
  Forall (fun i => from <= i < from + length l) (positions f l from).
Proof.
  induction l as [|x l IH]; intros from; [constructor|].
  cbn [positions length]. apply Forall_app. split.
  - destruct (f x); repeat constructor; lia.
  - eapply Forall_impl; [apply IH|]. cbn. intros i Hi. lia.
Qed.

Lemma positions_sorted {A} (f : A -> bool) (l : list A) : forall from,
  StronglySorted lt (positions f l from).
Proof.
  induction l as [|x l IH]; intros from; [constructor|].
  cbn [positions]. destruct (f x); cbn [app]; [|apply IH].
  constructor; [apply IH|].
  eapply Forall_impl; [apply positions_bounds|]. cbn. intros i Hi. lia.
Qed.

(** The collection of the model hands out pointers to its own documents, in
    the order it holds them. *)
Lemma Collection_Select_in_order s ds l :
  resmap.Select Collection s ds = (l, None) ->
  Forall (fun ptr => ptr < length ds) l /\ StronglySorted lt l.
Proof.
  cbn. destruct (malformed s); [discriminate|]. intros [= <-]. split.
  - eapply Forall_impl; [apply positions_bounds|]. cbn. intros i Hi. lia.
  - apply positions_sorted.
Qed.

End model_facts.

(** ** Broadcasting a strategic-merge patch over the document model *)

Module broadcast.
Import model.

Section Broadcast.
Context {Selector JPatch : Type} {jsonpatchLib : jsonpatch.Lib JPatch}.
Variable codec : Codec.
#[local] Instance document_methods : resource.Methods Document := Methods codec.
Abbreviation W := (@world Document Selector JPatch).

Lemma stamp_id d lp : id (stamp d lp) = id d.
Proof. destruct d as [[g n ns] o b]. reflexivity. Qed.

Lemma stamp_body d lp : body (stamp d lp) = body lp.
Proof. reflexivity. Qed.

Lemma retains_refl lp d : retains lp d d.
Proof. repeat split. Qed.

Lemma retains_trans lp d1 d2 d3 : retains lp d1 d2 -> retains lp d2 d3 -> retains lp d1 d3.
Proof.
  intros (I1 & O1 & F1) (I2 & O2 & F2). repeat split; try congruence.
  intros path Hc. rewrite F2, F1; auto.
Qed.

Lemma retains_patched lp lp0 d :
  body lp0 = body lp -> retains lp d (patched d (stamp d lp0)).
Proof.
  intros Hb. repeat split.
  - apply stamp_id.
  - intros path Hc. cbn [patched body]. rewrite stamp_body, Hb.
    now apply model_facts.mergeStrategic_frame.
Qed.

Lemma Transform_body_merge ptr (w : W) lp0 d :
  loadedPatch (plug w) = Some lp0 -> decodedPatch (plug w) = None ->
  docs w !! ptr = Some d ->
  Transform_body ptr w =
  (Next tt, World (with_loadedPatch (Some (stamp d lp0)) (plug w))
              (<[ptr := patched d (stamp d lp0)]> (docs w))
              (trace w ++ [CallPatch ptr (stamp d lp0)])).
Proof.
  destruct w as [p ds t]. cbn [plug docs trace]. intros HL HD Hd.
  unfold Transform_body. repeat (go; rewrite ?HL, ?HD, ?Hd).
  cbn. reflexivity.
Qed.

Lemma restamped_mono (ds ds' : list Document) lp (e : @event Document Selector) :
  (forall j d', ds' !! j = Some d' -> exists d, ds !! j = Some d /\ id d = id d') ->
  restamped ds' lp e -> restamped ds lp e.
Proof.
  intros Hds. destruct e; cbn; auto.
  intros (d' & Hd' & Hi & Hb). destruct (Hds _ _ Hd') as (d & Hd & Hid).
  exists d. repeat split; congruence.
Qed.

Lemma for_range_broadcast lp (l : list nat) : forall (w : W) lp0,
  loadedPatch (plug w) = Some lp0 -> body lp0 = body lp ->
  decodedPatch (plug w) = None ->
  Forall (fun ptr => ptr < length (docs w)) l ->
  exists w' calls,
    for_range l Transform_body w = (Next tt, w') /\
    length (docs w') = length (docs w) /\
    trace w' = (trace w ++ calls)%list /\
    patch_targets calls = l /\
    Forall (restamped (docs w) lp) calls /\
    forall j d, docs w !! j = Some d ->
      exists d', docs w' !! j = Some d' /\ retains lp d d' /\
        (j ∉ l -> d' = d) /\
        (NoDup l -> j ∈ l -> body d' = mergeStrategic (body lp) (body d)).
Proof.
  induction l as [|ptr l IH]; intros w lp0 HL Hb HD Hin.
  - exists w, []. split; [reflexivity|]. split; [reflexivity|].
    split; [now rewrite app_nil_r|]. split; [reflexivity|]. split; [constructor|].
    intros j d Hd. exists d. split; [assumption|]. split; [apply retains_refl|].
    split; [reflexivity|]. intros _ Hj. now apply elem_of_nil in Hj.
  - apply Forall_cons in Hin as [Hptr Hin].
    destruct (lookup_lt_is_Some_2 _ _ Hptr) as [d0 Hd0].
    pose proof (Transform_body_merge ptr w lp0 d0 HL HD Hd0) as Hstep.
    set (w1 := World (with_loadedPatch (Some (stamp d0 lp0)) (plug w))
                 (<[ptr := patched d0 (stamp d0 lp0)]> (docs w))
                 (trace w ++ [CallPatch ptr (stamp d0 lp0)])) in *.
    destruct (IH w1 (stamp d0 lp0)) as (w' & calls & Hrun & Hlen & Htr & Hpt & Hre & Hdocs).
    { reflexivity. } { now rewrite stamp_body. } { exact HD. }
    { cbn [w1 docs]. now rewrite length_insert. }
    cbn [w1 docs trace] in Hlen, Htr, Hre, Hdocs.
    exists w', (CallPatch ptr (stamp d0 lp0) :: calls). repeat split.
    + cbn [for_range]. unfold mbind, Go_bind. now rewrite Hstep.
    + now rewrite Hlen, length_insert.
    + now rewrite Htr, <- app_assoc.
    + cbn. now rewrite Hpt.
    + constructor.
      * exists d0. split; [assumption|]. split; [apply stamp_id|].
        now rewrite stamp_body.
      * eapply Forall_impl; [exact Hre|]. intros e. apply restamped_mono.
        intros j d' Hd'. destruct (decide (j = ptr)) as [->|Hne].
        -- rewrite list_lookup_insert_eq in Hd' by assumption. injection Hd' as <-.
           exists d0. split; [assumption|]. symmetry. apply stamp_id.
        -- rewrite list_lookup_insert_ne in Hd' by congruence. eauto.
    + intros j d Hd. destruct (decide (j = ptr)) as [->|Hne].
      * rewrite Hd0 in Hd. injection Hd as <-.
        destruct (Hdocs ptr (patched d0 (stamp d0 lp0))) as (d' & Hd' & Hret & Hout & Hin').
        { now apply list_lookup_insert_eq. }
        exists d'. split; [assumption|]. split.
        { eapply retains_trans; [|exact Hret]. now apply retains_patched. }
        split.
        { intros Hj. exfalso. apply Hj. left. }
        { intros Hnd _. apply NoDup_cons in Hnd as [Hnot _].
          rewrite (Hout Hnot). cbn [patched body]. now rewrite stamp_body, Hb. }
      * destruct (Hdocs j d) as (d' & Hd' & Hret & Hout & Hin').
        { rewrite list_lookup_insert_ne by congruence. assumption. }
        exists d'. split; [assumption|]. split; [assumption|]. split.
        { intros Hj. apply Hout. intros Hjl. apply Hj. now right. }
        { intros Hnd Hj. apply NoDup_cons in Hnd as [_ Hnd].
          apply elem_of_cons in Hj as [?|Hj]; [congruence|]. auto. }
Qed.

(** C6.  A strategic-merge patch [lp] applied through a selector that
    matches the documents [l]: the merge primitive is called once per
    matched document, in order, each time with a patch document that has
    the identity of its target and the body of [lp]; after [Transform]
    every document has its own identity, with the fields the patch body
    does not carry unchanged, the unmatched documents are as they were, and
    a document matched once has its body merged with the body of [lp]. *)
Theorem Transform_broadcast (m : resmap.ResMap Document Selector)
    (p : @plugin Document Selector JPatch) (ds : list Document) sel lp l :
  loadedPatch p = Some lp -> decodedPatch p = None -> Target p = Some sel ->
  resmap.Select m sel ds = (l, None) ->
  Forall (fun ptr => ptr < length ds) l ->
  let out := fst (Transform m (start p ds)) in
  let w' := snd (Transform m (start p ds)) in
  out = Return None /\
  patch_targets (trace w') = l /\
  Forall (restamped ds lp) (trace w') /\
  length (docs w') = length ds /\
  forall j d, ds !! j = Some d ->
    exists d', docs w' !! j = Some d' /\ retains lp d d' /\
      (j ∉ l -> d' = d) /\
      (NoDup l -> j ∈ l -> body d' = mergeStrategic (body lp) (body d)).
Proof.
  intros HL HD HT HS Hin.
  rewrite (Transform_selected m (start p ds) sel HT). cbn zeta. cbn [start plug docs trace app].
  rewrite HS.
  destruct (for_range_broadcast lp l (World p ds [CallSelect sel]) lp HL eq_refl HD Hin)
    as (w' & calls & Hrun & Hlen & Htr & Hpt & Hre & Hdocs).
  rewrite Hrun. cbn [fst snd]. cbn [docs trace] in *.
  repeat split; auto.
  - rewrite Htr. exact Hpt.
  - rewrite Htr. constructor; [exact I|exact Hre].
Qed.

End Broadcast.

End broadcast.

(** ** Runs on the sample collaborators *)

Module runs.
Import sample.

#[local] Existing Instance sample.jsonpatchLib.
#[local] Existing Instance sample.methods.

(** C1, witness: an inline patch that both decoders accept. *)
Lemma Config_ambiguous_returns_nil_witness :
  fst (Config (yamlLib := inline "[3]" None) (loader []) (factory replicas3) "patch: [3]"
         (start KustomizePlugin [])) = Return None.
Proof.
  apply (Config_ambiguous_returns_nil (yamlLib := inline "[3]" None)
           (loader []) (factory replicas3) "patch: [3]" KustomizePlugin [] "[3]");
    reflexivity.
Defined.

(** C4, witness: the same patch, with neither variant stored afterwards. *)
Lemma Config_classification_witness :
  let run := Config (yamlLib := inline "[3]" None) (loader []) (factory replicas3)
               "patch: [3]" (start KustomizePlugin []) in
  fst run = Return None /\
  loadedPatch (plug (snd run)) = None /\ decodedPatch (plug (snd run)) = None.
Proof.
  exact (Config_classification (yamlLib := inline "[3]" None)
           (loader []) (factory replicas3) "patch: [3]" KustomizePlugin [] "[3]"
           eq_refl eq_refl eq_refl).
Defined.

(** C9, witness: a path to a file the loader does not have. *)
Lemma Config_loader_error_witness :
  let run := Config (yamlLib := fromFile "missing.yaml") (loader []) (factory replicas3)
               "path: missing.yaml" (start KustomizePlugin []) in
  fst run = Return (Some (Errorf "no such file missing.yaml")) /\
  trace (snd run) = [CallUnmarshal "path: missing.yaml"; CallLoad "missing.yaml"] /\
  existsb is_decoder_call (trace (snd run)) = false.
Proof.
  exact (Config_loader_error (yamlLib := fromFile "missing.yaml")
           (loader []) (factory replicas3) "path: missing.yaml" KustomizePlugin []
           (Errorf "no such file missing.yaml") eq_refl eq_refl eq_refl).
Defined.

(** C3, counterexample: [path] alone is set and the loader fails; no source
    is resolved and [Config] returns the loader's error. *)
Lemma Config_one_source_unresolved :
  let q := fields "missing.yaml" "" None in
  let run := Config (yamlLib := yamlLib q) (loader []) (factory replicas3)
               "path: missing.yaml" (start KustomizePlugin []) in
  (isempty (Patch q) = true /\ isempty (Path q) = false) /\
  resolved_body (trace (snd run)) = None /\
  fst run = Return (Some (Errorf "no such file missing.yaml")).
Proof. repeat split. Qed.

(** C3, witness: [path] alone is set and the loader has the file. *)
Lemma Config_source_trichotomy_witness :
  let run := Config (yamlLib := fromFile "patch.yaml")
               (loader [("patch.yaml", "[3]")]) (factory replicas3)
               "path: patch.yaml" (start KustomizePlugin []) in
  resolved_body (trace (snd run)) = Some "[3]".
Proof.
  exact (Config_source_trichotomy (yamlLib := fromFile "patch.yaml")
           (loader [("patch.yaml", "[3]")]) (factory replicas3)
           "path: patch.yaml" KustomizePlugin [] (fields "patch.yaml" "" None) eq_refl).
Defined.

(** C5, counterexample: the trimmed body starts with an opening bracket,
    the body itself with a space, and the body goes through the conversion. *)
Lemma jsonPatchFromBytes_converts_trimmed_bracket :
  let run := jsonPatchFromBytes (yamlLib := inline "" None) " [3]" (start KustomizePlugin []) in
  starts_with_bracket (trimmed " [3]") = true /\
  trace (snd run) = [CallYAMLToJSON " [3]"; CallDecodePatch "[ [3]]"].
Proof. split; reflexivity. Qed.

(** C5, witness: a body that starts with an opening bracket is decoded
    directly. *)
Lemma jsonPatchFromBytes_first_byte_witness :
  let run := jsonPatchFromBytes (yamlLib := inline "" None) "[3]" (start KustomizePlugin []) in
  (starts_with_bracket (trimmed "[3]") = false -> starts_with_bracket "[3]" = false) /\
  fst run = Return (jsonpatch.DecodePatch "[3]") /\
  trace (snd run) = [CallDecodePatch "[3]"].
Proof.
  exact (jsonPatchFromBytes_first_byte (yamlLib := inline "" None) "[3]" KustomizePlugin [] eq_refl).
Defined.

(** C2, witness: scenario A.  The document [x] gets [spec.replicas = 3],
    and [Transform] returns [MissingTarget]. *)
Lemma Transform_implicit_target_witness :
  let run := Transform model.Collection (start (merging None) workloads) in
  fst run = Return (Some (MissingTarget "spec: {replicas: 3}")) /\
  (model.at_path ["spec"; "replicas"] ∘ model.body) <$> docs (snd run) !! 0
    = Some (Some (model.Scalar "3")).
Proof.
  pose proof (Transform_implicit_target_then_MissingTarget model.Collection
                (start (merging None) workloads) replicas3 0
                (document "x" (model.Mapping
                   [("spec", model.Mapping [("replicas", model.Scalar "1");
                                            ("image", model.Scalar "nginx")])]))
                _ eq_refl eq_refl eq_refl eq_refl eq_refl) as E.
  rewrite E. split; reflexivity.
Defined.

(** C6, witness: the patch written for [x], applied to [x] and [y]; both
    keep their names and both get [spec.replicas = 3]. *)
Lemma Transform_broadcast_witness :
  let run := Transform model.Collection (start (merging (Some everything)) workloads) in
  fst run = Return None /\
  patch_targets (trace (snd run)) = [0; 1] /\
  (resid.Name ∘ model.id) <$> docs (snd run) = ["x"; "y"] /\
  (model.at_path ["spec"; "replicas"] ∘ model.body) <$> docs (snd run)
    = [Some (model.Scalar "3"); Some (model.Scalar "3")].
Proof.
  pose proof (broadcast.Transform_broadcast codec model.Collection
                (merging (Some everything)) workloads everything replicas3 [0; 1]
                eq_refl eq_refl eq_refl eq_refl) as H.
  destruct H as (Hout & Hcalls & _).
  - repeat constructor.
  - split; [exact Hout|]. split; [exact Hcalls|]. split; reflexivity.
Defined.

(** C7, witness.  A JSON Patch over three documents, the second of which
    has no canonical form: the first is patched, the third is not reached.
    A merge over three documents, the second of which the merge primitive
    refuses: the first is merged, the third is not reached. *)
Lemma Transform_aborts_witness :
  (let run := Transform model.Collection (start (replacing (Some everything)) scalars) in
   fst run = Return (Some (Errorf "no canonical form")) /\
   model.body <$> docs (snd run)
     = [model.Scalar "2"; model.Mapping []; model.Scalar "1"]) /\
  (let run := Transform (methods := fragile) model.Collection
                (start (merging (Some everything)) mixed) in
   fst run = Return (Some (Errorf "cannot merge into a scalar")) /\
   (model.at_path ["spec"; "replicas"] ∘ model.body) <$> docs (snd run)
     = [Some (model.Scalar "3"); None; Some (model.Scalar "2")]).
Proof.
  split.
  - set (w0 := start (replacing (Some everything)) scalars).
    set (w1 := snd (for_range [0] Transform_body
                      (World (plug w0) (docs w0) (trace w0 ++ [CallSelect everything])))).
    edestruct (Transform_aborts_when_a_collaborator_fails model.Collection w0 everything
                 [0] 1 [2] w1 (Errorf "no canonical form")) as (E & _ & _);
      [reflexivity | reflexivity | reflexivity
      | eapply (fails_MarshalJSON w1 1 {| expected := "1"; replacement := "2" |}
                  (document "b" (model.Mapping [])) ""); reflexivity
      | ].
    cbn zeta. fold w0. rewrite E. split; reflexivity.
  - set (w0 := start (merging (Some everything)) mixed).
    set (w1 := snd (for_range (T := option error) [0] (Transform_body (methods := fragile))
                      (World (plug w0) (docs w0) (trace w0 ++ [CallSelect everything])))).
    edestruct (Transform_aborts_when_a_collaborator_fails (methods := fragile)
                 model.Collection w0 everything [0] 1 [2] w1
                 (Errorf "cannot merge into a scalar")) as (E & _ & _);
      [reflexivity | reflexivity | reflexivity
      | eapply (fails_Patch (methods := fragile) w1 1
                  (model.stamp (document "x" (model.Mapping [])) replicas3)
                  (document "a" (model.Scalar "1"))); reflexivity
      | ].
    cbn zeta. fold w0. rewrite E. split; reflexivity.
Defined.

(** C8, witness: a selector that matches nothing. *)
Lemma Transform_empty_selection_witness :
  Transform model.Collection (start (merging (Some nothing)) workloads)
  = (Return None, World (merging (Some nothing)) workloads [CallSelect nothing]).
Proof.
  exact (proj1 (Transform_empty_or_failed_selection model.Collection
                  (start (merging (Some nothing)) workloads) nothing eq_refl) eq_refl).
Defined.

(** C10, counterexample: both decoders accept the patch, neither variant is
    stored, and [Transform] with a selector that cannot be evaluated
    returns the error of the evaluation, not nil. *)
Lemma Transform_after_ambiguous_Config_fails :
  let w1 := snd (Config (yamlLib := inline "[3]" (Some broken)) (loader [])
                   (factory replicas3) "patch: [3]" (start KustomizePlugin workloads)) in
  (decodesStrategicMerge (factory replicas3) "[3]" = true /\
   decodesJSONPatch (yamlLib := inline "[3]" (Some broken)) "[3]" = true) /\
  (loadedPatch (plug w1) = None /\ decodedPatch (plug w1) = None) /\
  fst (Transform model.Collection w1) = Return (Some (Errorf "error parsing regexp")).
Proof. repeat split. Qed.

(** C10, witness: the same with a selector that matches every document. *)
Lemma Config_ambiguous_then_Transform_witness :
  let w1 := snd (Config (yamlLib := inline "[3]" (Some everything)) (loader [])
                   (factory replicas3) "patch: [3]" (start KustomizePlugin workloads)) in
  loadedPatch (plug w1) = None /\ decodedPatch (plug w1) = None /\
  docs (snd (Transform model.Collection w1)) = workloads /\
  fst (Transform model.Collection w1) = Return None.
Proof.
  destruct (Config_ambiguous_then_Transform (yamlLib := inline "[3]" (Some everything))
              (loader []) (factory replicas3) "patch: [3]" KustomizePlugin workloads
              model.Collection "[3]" everything)
    as (HL & HD & HT); [reflexivity..|].
  destruct (HT eq_refl) as [Hdocs Hout].
  repeat split; assumption.
Defined.
End runs.

(** * Further properties *)

(** ** For every implementation of the collaborators *)

Section Further.
Context {R Selector JPatch : Type}.
Context {methods : resource.Methods R} {yamlLib : yaml.Lib (@plugin R Selector JPatch)}
  {jsonpatchLib : jsonpatch.Lib JPatch}.
Abbreviation W := (@world R Selector JPatch).

Lemma stored_exported patchSM errSM (patchJson : option JPatch) errJson (p : @plugin R Selector JPatch) :
  let p' := stored patchSM errSM patchJson errJson p in
  ldr p' = ldr p /\ rf p' = rf p /\ Path p' = Path p /\ Patch p' = Patch p /\
  Target p' = Target p.
Proof. unfold stored. destruct errSM, errJson; repeat split. Qed.

(** X1.  When the configuration does not decode, [Config] returns the
    decoder's error as it is; nothing but the decoder has been called, and
    the plugin holds the patch variants it held before. *)
Theorem Config_undecodable loader factory c (p : plugin) (m : list R) q e :
  yaml.Unmarshal c (bound loader factory p) = (q, Some e) ->
  let run := Config loader factory c (start p m) in
  fst run = Return (Some e) /\
  trace (snd run) = [CallUnmarshal c] /\
  loadedPatch (plug (snd run)) = loadedPatch p /\
  decodedPatch (plug (snd run)) = decodedPatch p.
Proof.
  intros HU. unfold Config. go. fold (bound loader factory p). rewrite HU. go.
  repeat split.
Qed.

(** X2.  Called with a loader and a factory that are not nil (here they
    are not nil by their type), [Config] always returns, with an error or
    nil: the field [p.rf] it follows on line 60 was set on line 34 and the
    decoding of the configuration cannot reach it.  It leaves the
    collection alone and stores the loader and the factory it was given in
    the plugin. *)
Theorem Config_returns loader factory c (p : plugin) (m : list R) :
  let run := Config loader factory c (start p m) in
  (exists err, fst run = Return err) /\
  docs (snd run) = m /\
  ldr (plug (snd run)) = Some loader /\
  rf (plug (snd run)) = Some factory.
Proof.
  destruct (Config_run loader factory c p m) as (out & p' & calls & Hrun & ->).
  cbn [fst snd docs plug]. destruct Hrun; (split; [eauto|]); (split; [reflexivity|]).
  1-4: split; reflexivity.
  match goal with |- context [stored ?a ?b ?c ?d ?p] =>
    destruct (stored_exported a b c d p) as (-> & -> & _) end.
  split; reflexivity.
Qed.

(** X3.  For a configuration that decodes, [Config] calls the loader
    exactly when [path] is set and [patch] is not: an inline patch is never
    loaded, and with both fields set the loader is not reached. *)
Theorem Config_loads_only_a_lone_path loader factory c (p : plugin) (m : list R) (q : @plugin R Selector JPatch) :
  yaml.Unmarshal c (bound loader factory p) = (q, None) ->
  existsb is_CallLoad (trace (snd (Config loader factory c (start p m))))
  = isempty (Patch q) && nonempty (Path q).
Proof.
  intros HU.
  destruct (Config_run loader factory c p m) as (out & p' & calls & Hrun & ->).
  cbn [snd trace].
  destruct Hrun as [ q' e' HU' | q' HU' HP HQ | q' HU' HP HQ | q' data e' HU' HP HQ HL
                   | q' body' pre patchSM errSM patchJson errJson calls HU' HR HS HJ HJR];
    rewrite HU in HU'; simplify_eq.
  - now rewrite HP, HQ.
  - apply isempty_false in HP. now rewrite HP.
  - apply isempty_false in HQ. unfold nonempty. now rewrite HP, HQ.
  - destruct (JsonRun_calls _ _ _ HJ) as (_ & HnoL & _).
    destruct HR as [HP HQ | data HP HQ HL]; cbn [existsb app is_CallLoad orb].
    + apply isempty_false in HP. now rewrite HP, HnoL.
    + apply isempty_false in HQ. unfold nonempty. now rewrite HP, HQ.
Qed.

(** X4.  [Config] only ever writes the variant it selects and never clears
    one: when no source is resolved both variants stay as they were; when
    the body decodes as one format alone that variant is written and the
    other stays as it was; in the two remaining cases both stay.  A plugin
    configured a second time can so hold both variants. *)
Theorem Config_never_clears loader factory c (p : plugin) (m : list R) :
  let run := Config loader factory c (start p m) in
  let p' := plug (snd run) in
  match resolved_body (trace (snd run)) with
  | None => loadedPatch p' = loadedPatch p /\ decodedPatch p' = decodedPatch p
  | Some body =>
      loadedPatch p' =
        (if decodesStrategicMerge factory body && negb (decodesJSONPatch body)
         then fst (resource.FromBytes (resmap.RF factory) body) else loadedPatch p) /\
      decodedPatch p' =
        (if decodesJSONPatch body && negb (decodesStrategicMerge factory body)
         then decodedJSONPatch body else decodedPatch p)
  end.
Proof.
  destruct (Config_run loader factory c p m) as (out & p' & calls & Hrun & ->).
  cbn [fst snd trace plug].
  destruct Hrun as [ | | | | q body' pre patchSM errSM patchJson errJson calls HU HR HS HJ HJR];
    try (split; reflexivity).
  cbn [resolved_body]. rewrite (Resolved_body _ _ _ _ _ HR).
  unfold decodesStrategicMerge, decodedJSONPatch.
  rewrite HS, (decodesJSONPatch_result _ _ _ HJR), HJR. cbn [fst snd].
  destruct errSM, errJson; split; reflexivity.
Qed.

(** X5.  [jsonPatchFromBytes] always returns and never panics (the empty
    body is turned away before its first byte is read), and changes neither
    the plugin nor a document.  On the empty body it fails with its own
    error and calls no library. *)
Theorem jsonPatchFromBytes_returns body (w : W) :
  let run := jsonPatchFromBytes body w in
  (exists r, fst run = Return r) /\
  plug (snd run) = plug w /\ docs (snd run) = docs w /\
  (isempty body = true ->
   fst run = Return (None, Some (Errorf "empty json patch operations")) /\
   trace (snd run) = trace w).
Proof.
  destruct (jsonPatchFromBytes_run body w) as (r & calls & Hrun & ->).
  cbn [fst snd plug docs trace]. split; [eauto|]. split; [reflexivity|]. split; [reflexivity|].
  intros He. apply isempty_true in He. subst body.
  destruct Hrun; try discriminate; try contradiction.
  split; [reflexivity|]. apply app_nil_r.
Qed.

(** X6.  With neither a selector nor a strategic-merge patch (a JSON Patch
    alone, or no patch), [Transform] fails with [MissingTarget] and does
    nothing else: no call is made and the world is as before. *)
Theorem Transform_without_patch_or_target m (w : W) :
  Target (plug w) = None -> loadedPatch (plug w) = None ->
  Transform m w = (Return (Some (MissingTarget (Patch (plug w)))), w).
Proof.
  destruct w as [p ds t]. cbn [plug]. intros HT HL.
  unfold Transform. repeat (go; rewrite ?HT, ?HL). reflexivity.
Qed.

(** X7.  Without a selector [Transform] never returns nil, whatever the
    patch, the collection and the collaborators do. *)
Theorem Transform_without_target_never_succeeds m (w : W) :
  Target (plug w) = None -> fst (Transform m w) <> Return None.
Proof.
  destruct w as [p ds t]. cbn [plug]. intros HT.
  unfold Transform. go. rewrite HT.
  destruct (loadedPatch p) as [lp|] eqn:HL; go; [|discriminate].
  rewrite HL. go.
  destruct (resmap.GetById m (resource.OrgId lp) ds) as [target [e|]]; go; [discriminate|].
  rewrite HL. go.
  destruct target as [ptr|]; go; [|discriminate].
  destruct (ds !! ptr) as [d|]; go; [|discriminate].
  destruct (resource.Patch d lp) as [d' [e|]]; go; discriminate.
Qed.

(** X8.  With a strategic-merge patch and no selector, an error of the
    lookup by identity is returned as it is; the lookup is the only call
    made and no document changes. *)
Theorem Transform_lookup_error m (w : W) lp target e :
  loadedPatch (plug w) = Some lp -> Target (plug w) = None ->
  resmap.GetById m (resource.OrgId lp) (docs w) = (target, Some e) ->
  Transform m w =
  (Return (Some e),
   World (plug w) (docs w) (trace w ++ [CallGetById (resource.OrgId lp)])).
Proof.
  destruct w as [p ds t]. cbn [plug docs trace]. intros HL HT HG.
  unfold Transform. repeat (go; rewrite ?HL, ?HT, ?HG). reflexivity.
Qed.

(** X9.  With a strategic-merge patch and no selector, an error of the
    merge primitive on the document found is returned as it is (not
    [MissingTarget]), the document being left as the primitive left it. *)
Theorem Transform_merge_error m (w : W) lp ptr d d' e :
  loadedPatch (plug w) = Some lp -> Target (plug w) = None ->
  resmap.GetById m (resource.OrgId lp) (docs w) = (Some ptr, None) ->
  docs w !! ptr = Some d -> resource.Patch d lp = (d', Some e) ->
  Transform m w =
  (Return (Some e),
   World (plug w) (<[ptr := d']> (docs w))
     (trace w ++ [CallGetById (resource.OrgId lp); CallPatch ptr lp])).
Proof.
  destruct w as [p ds t]. cbn [plug docs trace]. intros HL HT HG Hd HP.
  unfold Transform. repeat (go; rewrite ?HL, ?HT, ?HG, ?Hd, ?HP).
  now rewrite <- app_assoc.
Qed.

(** X10.  When the JSON Patch cannot be applied to the first selected
    document, [Transform] returns the error of [Apply] wrapped with the
    message naming the patch; the document has been serialized but is not
    written, and nothing after [Apply] is called. *)
Theorem Transform_wraps_apply_error m (w : W) sel ops ptr rest d raw modified e :
  Target (plug w) = Some sel -> decodedPatch (plug w) = Some ops ->
  resmap.Select m sel (docs w) = (ptr :: rest, None) ->
  docs w !! ptr = Some d ->
  resource.MarshalJSON d = (raw, None) ->
  jsonpatch.Apply ops raw = (modified, Some e) ->
  Transform m w =
  (Return (Some (Wrapf e ("failed to apply json patch '" +:+ Patch (plug w) +:+ "'"))),
   World (plug w) (docs w)
     (trace w ++ [CallSelect sel; CallMarshalJSON ptr; CallApply raw])).
Proof.
  destruct w as [p ds t]. cbn [plug docs trace]. intros HT HD HS Hd HM HA.
  rewrite (Transform_selected m (World p ds t) sel HT). cbn zeta. cbn [plug docs trace].
  rewrite HS. cbn [for_range]. unfold Transform_body.
  repeat (go; rewrite ?HD, ?Hd, ?HM, ?HA).
  now rewrite <- !app_assoc.
Qed.

Lemma configured_alike_refl (w : W) : configured_alike w w.
Proof. repeat split. Qed.

Lemma configured_alike_trans (w1 w2 w3 : W) :
  configured_alike w1 w2 -> configured_alike w2 w3 -> configured_alike w1 w3.
Proof. unfold configured_alike. intuition congruence. Qed.

Ltac keeps_configured :=
  repeat first
    [ apply (keeps_bind _ configured_alike_trans); [|intros ?]
    | apply (keeps_when _ configured_alike_refl)
    | apply (keeps_pure _ configured_alike_refl)
    | apply (keeps_return _ configured_alike_refl)
    | apply (keeps_panic _ configured_alike_refl)
    | apply (keeps_get_plug _ configured_alike_refl)
    | apply (keeps_get_docs _ configured_alike_refl)
    | apply (keeps_deref _ configured_alike_refl)
    | apply (keeps_for_range _ configured_alike_refl configured_alike_trans); intros ?
    | match goal with
      | |- keeps _ (log _) => intros ?; repeat split
      | |- keeps _ (assign (with_loadedPatch _)) => intros ?; repeat split
      | |- keeps _ (store _ _) => intros ?; repeat split; apply length_insert
      | |- keeps _ (match ?x with _ => _ end) => destruct x
      end ].

(** X11.  Whatever [Transform] returns, the collection has as many
    documents as before, and the plugin's path, patch text, selector,
    JSON Patch, loader and factory are as before: of the plugin only the
    strategic-merge patch document can change. *)
Theorem Transform_keeps_configuration m (w : W) :
  let w' := snd (Transform m w) in
  length (docs w') = length (docs w) /\
  Path (plug w') = Path (plug w) /\ Patch (plug w') = Patch (plug w) /\
  Target (plug w') = Target (plug w) /\
  decodedPatch (plug w') = decodedPatch (plug w) /\
  ldr (plug w') = ldr (plug w) /\ rf (plug w') = rf (plug w).
Proof.
  enough (keeps configured_alike (Transform m)) as Hk by apply Hk.
  unfold Transform, Transform_body, m_GetById, m_Select, ptr_MarshalJSON,
    ptr_UnmarshalJSON, ptr_Patch, at_ptr, p_decodedPatch_Apply, p_loadedPatch_set,
    p_loadedPatch.
  keeps_configured.
Qed.

Lemma Transform_body_json ptr (w : W) ops d d' :
  decodedPatch (plug w) = Some ops -> loadedPatch (plug w) = None ->
  docs w !! ptr = Some d -> json_patched ops d = Some d' ->
  exists calls,
    Transform_body ptr w =
    (Next tt, World (plug w) (<[ptr := d']> (docs w)) (trace w ++ calls)).
Proof.
  destruct w as [p ds t]. cbn [plug docs trace]. intros HD HL Hd. unfold json_patched.
  destruct (resource.MarshalJSON d) as [raw [e|]] eqn:HM; [discriminate|].
  destruct (jsonpatch.Apply ops raw) as [modified [e|]] eqn:HA; [discriminate|].
  destruct (resource.UnmarshalJSON modified d) as [d1 [e|]] eqn:HU; [discriminate|].
  intros [= <-]. unfold Transform_body.
  repeat (go; rewrite ?HD, ?HL, ?Hd, ?HM, ?HA, ?HU).
  eexists. rewrite <- !app_assoc. reflexivity.
Qed.

Lemma for_range_json ops (l : list nat) : forall w : W,
  decodedPatch (plug w) = Some ops -> loadedPatch (plug w) = None ->
  NoDup l ->
  (forall ptr, ptr ∈ l -> exists d, docs w !! ptr = Some d /\ is_Some (json_patched ops d)) ->
  exists w',
    for_range l Transform_body w = (Next tt, w') /\
    plug w' = plug w /\
    forall j, docs w' !! j =
      if decide (j ∈ l) then docs w !! j ≫= json_patched ops else docs w !! j.
Proof.
  induction l as [|ptr l IH]; intros w HD HL Hnd Hall.
  - exists w. split; [reflexivity|]. split; [reflexivity|].
    intros j. destruct (decide (j ∈ [])) as [Hj|]; [|reflexivity].
    now apply elem_of_nil in Hj.
  - apply NoDup_cons in Hnd as [Hnot Hnd].
    destruct (Hall ptr) as (d & Hd & [d' Hd']); [left|].
    destruct (Transform_body_json ptr w ops d d' HD HL Hd Hd') as (calls & Hstep).
    set (w1 := World (plug w) (<[ptr := d']> (docs w)) (trace w ++ calls)) in *.
    destruct (IH w1) as (w' & Hrun & Hplug & Hdocs); try assumption.
    { intros q Hq. destruct (Hall q) as (dq & Hdq & Hok); [now right|].
      exists dq. split; [|assumption]. cbn [w1 docs].
      rewrite list_lookup_insert_ne; [assumption|]. intros ->. contradiction. }
    exists w'. split; [|split].
    + cbn [for_range]. unfold mbind, Go_bind. now rewrite Hstep.
    + now rewrite Hplug.
    + intros j. rewrite Hdocs. cbn [w1 docs].
      destruct (decide (j = ptr)) as [->|Hne].
      * rewrite decide_False by assumption. rewrite decide_True by left.
        rewrite list_lookup_insert_eq by (eapply lookup_lt_Some; eassumption).
        rewrite Hd. cbn. now rewrite Hd'.
      * rewrite list_lookup_insert_ne by congruence.
        destruct (decide (j ∈ l)) as [Hj|Hj].
        -- rewrite decide_True by now right. reflexivity.
        -- rewrite decide_False; [reflexivity|].
           intros [?|?]%elem_of_cons; contradiction.
Qed.

(** X12.  A JSON Patch applied through a selector that matches the distinct
    documents [l], each of which can be serialized, patched and read back:
    [Transform] returns nil, each matched document is replaced by what
    reading back its patched serialization gives, the others and the
    plugin are unchanged. *)
Theorem Transform_json_broadcast m (w : W) sel ops l :
  Target (plug w) = Some sel ->
  decodedPatch (plug w) = Some ops -> loadedPatch (plug w) = None ->
  resmap.Select m sel (docs w) = (l, None) -> NoDup l ->
  (forall ptr, ptr ∈ l -> exists d, docs w !! ptr = Some d /\ is_Some (json_patched ops d)) ->
  let w' := snd (Transform m w) in
  fst (Transform m w) = Return None /\
  plug w' = plug w /\
  forall j, docs w' !! j =
    if decide (j ∈ l) then docs w !! j ≫= json_patched ops else docs w !! j.
Proof.
  intros HT HD HL HS Hnd Hall.
  rewrite (Transform_selected m w sel HT). cbn zeta. rewrite HS.
  destruct (for_range_json ops l (World (plug w) (docs w) (trace w ++ [CallSelect sel])))
    as (w' & Hrun & Hplug & Hdocs); try assumption.
  rewrite Hrun. cbn [fst snd]. split; [reflexivity|]. split; assumption.
Qed.
End Further.

(** ** The patch document after a broadcast *)

Module restamping.
Import model.

Section Restamping.
Context {Selector JPatch : Type} {jsonpatchLib : jsonpatch.Lib JPatch}.
Variable codec : Codec.
#[local] Hint Extern 0 (resource.Methods Document) =>
  exact (broadcast.document_methods codec) : typeclass_instances.
Abbreviation W := (@world Document Selector JPatch).


End Restamping.
End restamping.

(** ** Further runs on the sample collaborators *)

Module further_runs.
Import sample.

#[local] Existing Instance sample.jsonpatchLib.
#[local] Existing Instance sample.methods.

(** X1, witness: a configuration the decoder refuses. *)
Lemma Config_undecodable_witness :
  let run := Config (yamlLib := undecodable) (loader []) (factory replicas3) "patch"
               (start KustomizePlugin []) in
  fst run = Return (Some (Errorf "error converting YAML to JSON")) /\
  trace (snd run) = [CallUnmarshal "patch"] /\
  loadedPatch (plug (snd run)) = None /\ decodedPatch (plug (snd run)) = None.
Proof.
  apply (Config_undecodable (yamlLib := undecodable) (loader []) (factory replicas3)
           "patch" KustomizePlugin [] (bound (loader []) (factory replicas3) KustomizePlugin)).
  reflexivity.
Defined.

(** X3, witness: a path alone; the loader is called. *)
Lemma Config_loads_only_a_lone_path_witness :
  existsb is_CallLoad
    (trace (snd (Config (yamlLib := fromFile "patch.yaml") (loader [("patch.yaml", "[3]")])
                   (factory replicas3) "path: patch.yaml" (start KustomizePlugin []))))
  = true.
Proof.
  apply (Config_loads_only_a_lone_path (yamlLib := fromFile "patch.yaml")
           (loader [("patch.yaml", "[3]")]) (factory replicas3) "path: patch.yaml"
           KustomizePlugin [] (fields "patch.yaml" "" None)).
  reflexivity.
Defined.

(** X6, witness: a JSON Patch without a selector. *)
Lemma Transform_without_patch_or_target_witness :
  Transform model.Collection (start (replacing None) scalars)
  = (Return (Some (MissingTarget "[test, replace]")), start (replacing None) scalars).
Proof.
  apply (Transform_without_patch_or_target model.Collection (start (replacing None) scalars));
    reflexivity.
Defined.

(** X7, witness: scenario A. *)
Lemma Transform_without_target_never_succeeds_witness :
  fst (Transform model.Collection (start (merging None) workloads)) <> Return None.
Proof.
  apply (Transform_without_target_never_succeeds model.Collection
           (start (merging None) workloads)).
  reflexivity.
Defined.

(** X8, witness: a patch for a document the collection does not hold. *)
Lemma Transform_lookup_error_witness :
  fst (Transform model.Collection (start forZ scalars)) = Return (Some model.TargetNotFound) /\
  docs (snd (Transform model.Collection (start forZ scalars))) = scalars.
Proof.
  rewrite (Transform_lookup_error model.Collection (start forZ scalars)
             (document "z" (model.Mapping [("spec", model.Scalar "s")])) None
             model.TargetNotFound); [split; reflexivity|reflexivity..].
Defined.

(** X9, witness: a merge primitive that refuses the document found. *)
Lemma Transform_merge_error_witness :
  fst (Transform (methods := fragile) model.Collection (start forA scalars))
  = Return (Some (Errorf "cannot merge into a scalar")).
Proof.
  rewrite (Transform_merge_error (methods := fragile) model.Collection (start forA scalars)
             (document "a" (model.Mapping [("spec", model.Scalar "s")])) 0
             (document "a" (model.Scalar "1")) (document "a" (model.Scalar "1"))
             (Errorf "cannot merge into a scalar")); reflexivity.
Defined.

(** X10, witness: the [test] of the JSON Patch fails on the document. *)
Lemma Transform_wraps_apply_error_witness :
  Transform model.Collection
    (start (replacing (Some everything)) [document "a" (model.Scalar "7")])
  = (Return (Some (Wrapf (Errorf "testing value failed")
               "failed to apply json patch '[test, replace]'")),
     World (replacing (Some everything)) [document "a" (model.Scalar "7")]
       [CallSelect everything; CallMarshalJSON 0; CallApply "7"]).
Proof.
  apply (Transform_wraps_apply_error model.Collection
           (start (replacing (Some everything)) [document "a" (model.Scalar "7")])
           everything {| expected := "1"; replacement := "2" |} 0 []
           (document "a" (model.Scalar "7")) "7" "7" (Errorf "testing value failed"));
    reflexivity.
Defined.

(** X12, witness: the JSON Patch over the first and third documents. *)
Lemma Transform_json_broadcast_witness :
  let run := Transform model.Collection (start (replacing (Some notB)) scalars) in
  fst run = Return None /\
  model.body <$> docs (snd run)
    = [model.Scalar "2"; model.Mapping []; model.Scalar "2"].
Proof.
  destruct (Transform_json_broadcast model.Collection (start (replacing (Some notB)) scalars)
              notB {| expected := "1"; replacement := "2" |} [0; 2])
    as (Hout & _ & _); try reflexivity.
  - apply (bool_decide_unpack (NoDup [0; 2])). reflexivity.
  - intros ptr Hptr. apply elem_of_cons in Hptr as [->|Hptr];
      [|apply elem_of_cons in Hptr as [->|Hptr]; [|now apply elem_of_nil in Hptr]].
    + eexists. split; [reflexivity|]. eexists. reflexivity.
    + eexists. split; [reflexivity|]. eexists. reflexivity.
  - split; [exact Hout|reflexivity].
Defined.

End further_runs.
